(** * NexusAI retrieval and generation core: a shallow embedding

    The development follows four source files of the repository:

    - [services/ai_service.py]       (error classification, token budget,
                                      provider fallback in [AIService.stream]);
    - [services/chunking_service.py] (paragraph chunker);
    - [services/embedding_service.py] (cached batch embedding);
    - [services/vector_store.py]     (numpy fallback of the vector store).

    Conventions.  Python [int] is [Z]; [str] is [string], read as a sequence
    of code points below 256; a [list] is a [list]; a [dict] is a [gmap] when
    only lookups matter and an association list when iteration order does;
    numpy floats are idealised as real numbers; a generator is the finite
    list of what it yields together with the way it ends. *)

From Stdlib Require Import ZArith List String Ascii Bool Lia Reals Lra.
From stdpp Require Import base list strings gmap sorting pretty.
Import ListNotations.

Open Scope string_scope.
Open Scope list_scope.
Open Scope Z_scope.

(** ** Python strings *)

Module PyStr.

(** [len(s)] *)
Definition len (s : string) : Z := Z.of_nat (String.length s).

(** [c.isspace()], which is also what [\s] matches in a [str] pattern:
    tab, line feed, vertical tab, form feed, carriage return, the four
    separators 0x1c-0x1f, space, NEL and the no-break space. *)
Definition is_space (c : ascii) : bool :=
  let n := N_of_ascii c in
  (((9 <=? n) && (n <=? 13)) || ((28 <=? n) && (n <=? 32))
   || (n =? 133) || (n =? 160))%N.

(** [s.lstrip()] *)
Fixpoint lstrip (s : string) : string :=
  match s with
  | EmptyString => EmptyString
  | String c s' => if is_space c then lstrip s' else s
  end.

(** [s.rstrip()] *)
Fixpoint rstrip (s : string) : string :=
  match s with
  | EmptyString => EmptyString
  | String c s' =>
      match rstrip s' with
      | EmptyString => if is_space c then EmptyString else String c EmptyString
      | r => String c r
      end
  end.

(** [s.strip()] *)
Definition strip (s : string) : string := rstrip (lstrip s).

(** Truth value of a string: [bool(s)]. *)
Definition truthy (s : string) : bool :=
  match s with EmptyString => false | _ => true end.

(** [c.lower()] on one code point below 256: A-Z and the Latin-1 capitals
    0xC0-0xDE (the multiplication sign 0xD7 apart) move up by 32. *)
Definition lower_char (c : ascii) : ascii :=
  let n := N_of_ascii c in
  if (((65 <=? n) && (n <=? 90))
      || ((192 <=? n) && (n <=? 222) && negb (n =? 215)))%N
  then ascii_of_N (n + 32) else c.

(** [s.lower()] *)
Fixpoint lower (s : string) : string :=
  match s with
  | EmptyString => EmptyString
  | String c s' => String (lower_char c) (lower s')
  end.

(** [s.startswith(p)] *)
Fixpoint startswith (p s : string) : bool :=
  match p, s with
  | EmptyString, _ => true
  | String _ _, EmptyString => false
  | String a p', String b s' => if Ascii.eqb a b then startswith p' s' else false
  end.

(** [sub in s] *)
Fixpoint contains (sub s : string) : bool :=
  startswith sub s
  || match s with
     | EmptyString => false
     | String _ s' => contains sub s'
     end.

End PyStr.

(** ** Python lists *)

Module PyList.

(** [l.insert(i, x)] for [0 <= i]: the element goes in front of position
    [i], or at the end when [i] is past it. *)
Definition insert_at {A} (i : nat) (x : A) (l : list A) : list A :=
  take i l ++ x :: drop i l.

(** [l[:k]] for an [int] [k]: a negative [k] counts from the end. *)
Definition slice_to {A} (k : Z) (l : list A) : list A :=
  if 0 <=? k then take (Z.to_nat k) l
  else take (Z.to_nat (Z.of_nat (length l) + k)) l.

(** [l[-n:]] for [0 < n]: the last [n] elements, the whole list when it is
    shorter. *)
Definition last_n {A} (n : nat) (l : list A) : list A :=
  drop (length l - n)%nat l.

(** [l.index(x)]: the first position of [x], [None] where Python raises
    [ValueError]. *)
Fixpoint index {A} `{EqDecision A} (x : A) (l : list A) : option nat :=
  match l with
  | [] => None
  | y :: l' => if decide (x = y) then Some 0%nat else S <$> index x l'
  end.

(** Insertion of one element into a list sorted by key: in front of the
    first element whose key is not smaller. *)
Fixpoint insert_by {A} (leb : A -> A -> bool) (x : A) (l : list A) : list A :=
  match l with
  | [] => [x]
  | y :: l' => if leb x y then x :: l else y :: insert_by leb x l'
  end.

(** A stable ascending sort: elements that compare equal keep their
    relative order, as in [list.sort] and [sorted]. *)
Definition stable_sort {A} (leb : A -> A -> bool) (l : list A) : list A :=
  foldr (insert_by leb) [] l.

End PyList.

(** ** [services/ai_service.py] *)

Module AIService.

(** *** Error classification *)

Inductive LLMErrorType :=
| RATE_LIMIT | AUTH_ERROR | TIMEOUT | CONTENT_BLOCKED
| MODEL_ERROR | NETWORK_ERROR | UNKNOWN.

(** [classify_error(error)]; the argument is [str(error)]. *)
Definition classify_error (error : string) : LLMErrorType :=
  let error_msg := PyStr.lower error in
  let has s := PyStr.contains s error_msg in
  if has "rate" || has "limit" || PyStr.contains "429" error then RATE_LIMIT
  else if has "api_key" || has "invalid" || has "auth"
          || PyStr.contains "401" error then AUTH_ERROR
  else if has "timeout" || has "timed out" then TIMEOUT
  else if has "blocked" || has "safety" || has "filter" then CONTENT_BLOCKED
  else if has "model" && (has "not found" || has "unavailable") then MODEL_ERROR
  else if has "network" || has "connect" then NETWORK_ERROR
  else UNKNOWN.

(** *** Token budget *)

Definition MAX_TOKEN_BUDGET : Z := 8000.
Definition MAX_HISTORY_MESSAGES : Z := 10.

Definition estimate_tokens (text : string) : Z := PyStr.len text / 4.

Record ChatMessage := mkChatMessage { role : string; content : string }.

#[global] Instance ChatMessage_eq_dec : EqDecision ChatMessage.
Proof. solve_decision. Defined.

Definition sum_tokens (messages : list ChatMessage) : Z :=
  foldr (fun m acc => estimate_tokens (content m) + acc) 0 messages.

(** The loop [for msg in reversed(messages)]: [rev_messages] is the
    reversed list, [result] and [current_tokens] are the loop's variables.
    The insertion index is [1 if result else 0]. *)
Fixpoint trim_loop (budget : Z) (rev_messages : list ChatMessage)
         (result : list ChatMessage) (current_tokens : Z) : list ChatMessage :=
  match rev_messages with
  | [] => result
  | msg :: rest =>
      let msg_tokens := estimate_tokens (content msg) in
      if current_tokens + msg_tokens <=? budget then
        let i := match result with [] => 0%nat | _ => 1%nat end in
        trim_loop budget rest (PyList.insert_at i msg result)
                  (current_tokens + msg_tokens)
      else result
  end.

Definition trim_to_token_budget (messages : list ChatMessage) (budget : Z)
  : list ChatMessage :=
  match messages with
  | [] => messages
  | first :: others =>
      let total_tokens := sum_tokens messages in
      if total_tokens <=? budget then messages
      else if String.eqb (role first) "system"
      then trim_loop budget (rev others) [first] (estimate_tokens (content first))
      else trim_loop budget (rev messages) [] 0
  end.

(** *** Providers

    An [AIProvider] is an interface; [provider_stream] is its [stream]
    method run to the end: the chunks it yields, in order, and whether the
    generator then finishes or raises ([Raised] carries [str(e)]).
    Temperature and the extra keyword arguments are the same in every
    provider call of one request and are left out. *)

Inductive outcome := Completed | Raised (error : string).

Record AIProvider := mkAIProvider {
  is_available : bool;
  provider_stream : list ChatMessage -> string -> list string * outcome
}.

(** The service: [providers] is a [dict], iterated in insertion order. *)
Record AIService := mkAIService {
  providers : list (string * AIProvider);
  _current_provider : option string;
  _current_model : string
}.

(** [self.providers.get(name)] *)
Fixpoint dict_get (name : string) (d : list (string * AIProvider))
  : option AIProvider :=
  match d with
  | [] => None
  | (k, p) :: d' => if String.eqb k name then Some p else dict_get name d'
  end.

(** [get_provider()] with no argument. *)
Definition get_provider (self : AIService) : option AIProvider :=
  match _current_provider self with
  | Some name => dict_get name (providers self)
  | None => None
  end.

Definition get_available_providers (self : AIService) : list string :=
  map fst (filter (fun np => is_available (snd np) = true) (providers self)).

(** [fallback_name != self._current_provider] *)
Definition differs_from_current (self : AIService) (name : string) : bool :=
  match _current_provider self with
  | Some cur => negb (String.eqb name cur)
  | None => true
  end.

(** [provider and provider.is_available()] *)
Definition usable (provider : option AIProvider) : bool :=
  match provider with Some p => is_available p | None => false end.

(** One history entry is a [dict]; [_build_messages] reads two keys. *)
Definition build_history_message (msg : gmap string string) : ChatMessage :=
  mkChatMessage (default "user" (msg !! "role")) (default "" (msg !! "content")).

(** [_build_messages]; a [None] history is the empty list and a [None]
    system prompt the empty string, both false in [if]. *)
Definition _build_messages (prompt : string) (history : list (gmap string string))
           (system_prompt : string) : list ChatMessage :=
  (if PyStr.truthy system_prompt
   then [mkChatMessage "system" system_prompt] else [])
  ++ map build_history_message (PyList.last_n 10 history)
  ++ [mkChatMessage "user" prompt].

(** What one streaming call does, as the caller and the providers see
    it: [Invoke name] when the [stream] method of a provider is started,
    [Yield from text] for each chunk handed to the caller. *)
Inductive origin := FromGateway | FromProvider (name : string).

Inductive event :=
| Invoke (name : string)
| Yield (from : origin) (text : string).

(** The gateway's own messages (each starts with a pictograph in the
    source, left out here). *)
Definition MSG_NO_PROVIDER := "No AI provider configured.".
Definition MSG_RATE_LIMIT := "Rate limit reached. Please wait a moment and try again.".
Definition MSG_AUTH := "API key error. Please check your configuration.".
Definition MSG_BLOCKED := "Content was blocked by safety filters.".
Definition MSG_TIMEOUT := "Request timed out. Please try again.".
Definition MSG_OTHER (e : string) := "An error occurred: " +:+ e.

Definition error_message (error_type : LLMErrorType) (e : string) : string :=
  match error_type with
  | RATE_LIMIT => MSG_RATE_LIMIT
  | AUTH_ERROR => MSG_AUTH
  | CONTENT_BLOCKED => MSG_BLOCKED
  | TIMEOUT => MSG_TIMEOUT
  | _ => MSG_OTHER e
  end.

(** The first loop of [stream], entered when the current provider is
    missing or unavailable: [provider] is reassigned for every other name
    and the loop stops at the first usable one. *)
Fixpoint select_loop (self : AIService) (names : list string)
         (provider : option (string * AIProvider)) : option (string * AIProvider) :=
  match names with
  | [] => provider
  | fallback_name :: rest =>
      if differs_from_current self fallback_name then
        let provider' :=
          (fun p => (fallback_name, p)) <$> dict_get fallback_name (providers self) in
        if usable (snd <$> provider') then provider'
        else select_loop self rest provider'
      else select_loop self rest provider
  end.

(** The provider the primary attempt uses, with the name it is looked up
    under. *)
Definition select_provider (self : AIService) (enable_fallback : bool)
  : option (string * AIProvider) :=
  let provider :=
    match _current_provider self with
    | Some name => (fun p => (name, p)) <$> dict_get name (providers self)
    | None => None
    end in
  if usable (snd <$> provider) then provider
  else if enable_fallback
       then select_loop self (get_available_providers self) provider
       else provider.

Definition fallback_model (fallback_name : string) : string :=
  if String.eqb fallback_name "groq"
  then "llama-3.3-70b-versatile" else "gemini-2.0-flash-exp".

Definition yields_of (name : string) (chunks : list string) : list event :=
  map (Yield (FromProvider name)) chunks.

(** The loop in the [except] branch.  The boolean is [true] when a
    fallback finished and the generator returned. *)
Fixpoint fallback_loop (self : AIService) (messages : list ChatMessage)
         (names : list string) : list event * bool :=
  match names with
  | [] => ([], false)
  | fallback_name :: rest =>
      if differs_from_current self fallback_name then
        match dict_get fallback_name (providers self) with
        | Some fallback_provider =>
            if is_available fallback_provider then
              let '(chunks, out) :=
                provider_stream fallback_provider messages
                                (fallback_model fallback_name) in
              let here := Invoke fallback_name :: yields_of fallback_name chunks in
              match out with
              | Completed => (here, true)
              | Raised _ =>
                  let '(later, returned) := fallback_loop self messages rest in
                  (here ++ later, returned)
              end
            else fallback_loop self messages rest
        | None => fallback_loop self messages rest
        end
      else fallback_loop self messages rest
  end.

(** [AIService.stream], consumed to the end. *)
Definition stream_trace (self : AIService) (prompt : string)
           (history : list (gmap string string)) (system_prompt : string)
           (enable_fallback : bool) : list event :=
  match select_provider self enable_fallback with
  | Some (name, provider) =>
      if is_available provider then
        let messages :=
          trim_to_token_budget (_build_messages prompt history system_prompt)
                               MAX_TOKEN_BUDGET in
        let '(chunks, out) := provider_stream provider messages (_current_model self) in
        let primary := Invoke name :: yields_of name chunks in
        match out with
        | Completed => primary
        | Raised e =>
            let error_type := classify_error e in
            let '(fallback, returned) :=
              if enable_fallback
              then fallback_loop self messages (get_available_providers self)
              else ([], false) in
            if returned then primary ++ fallback
            else primary ++ fallback
                 ++ [Yield FromGateway (error_message error_type e)]
        end
      else [Yield FromGateway MSG_NO_PROVIDER]
  | None => [Yield FromGateway MSG_NO_PROVIDER]
  end.

(** The chunks the caller receives. *)
Definition yielded (trace : list event) : list string :=
  omap (fun ev => match ev with Yield _ text => Some text | Invoke _ => None end) trace.

Definition stream (self : AIService) (prompt : string)
           (history : list (gmap string string)) (system_prompt : string)
           (enable_fallback : bool) : list string :=
  yielded (stream_trace self prompt history system_prompt enable_fallback).

(** The providers whose [stream] method was started, in order. *)
Definition invoked (trace : list event) : list string :=
  omap (fun ev => match ev with Invoke name => Some name | Yield _ _ => None end) trace.

(** The providers that sent the caller at least one chunk, in order of
    the chunks. *)
Definition chunk_sources (trace : list event) : list string :=
  omap (fun ev => match ev with
                  | Yield (FromProvider name) _ => Some name
                  | _ => None
                  end) trace.

(** *** Notions used in the statements *)

(** The message window of a call. *)
Definition request_messages (prompt : string) (history : list (gmap string string))
           (system_prompt : string) : list ChatMessage :=
  trim_to_token_budget (_build_messages prompt history system_prompt)
                       MAX_TOKEN_BUDGET.

(** The names the loop of the [except] branch calls: available providers
    other than the current one. *)
Definition is_candidate (self : AIService) (name : string) : bool :=
  differs_from_current self name && usable (dict_get name (providers self)).

Definition fallback_candidates (self : AIService) : list string :=
  filter (fun name => is_candidate self name = true) (get_available_providers self).

(** Messages for the examples. *)
Definition user (c : string) : ChatMessage := mkChatMessage "user" c.
Definition assistant (c : string) : ChatMessage := mkChatMessage "assistant" c.
Definition system (c : string) : ChatMessage := mkChatMessage "system" c.

(** Two configured providers for the examples: [groq] is the current one. *)
Definition failing (chunks : list string) (e : string) : AIProvider :=
  mkAIProvider true (fun _ _ => (chunks, Raised e)).
Definition answering (chunks : list string) : AIProvider :=
  mkAIProvider true (fun _ _ => (chunks, Completed)).
Definition two_providers (groq gemini : AIProvider) : AIService :=
  mkAIService [("groq", groq); ("gemini", gemini)] (Some "groq")
              "llama-3.3-70b-versatile".

End AIService.

(** ** [services/chunking_service.py] *)

Module Chunking.

Record Chunk := mkChunk {
  text : string;
  start_idx : Z;
  end_idx : Z;
  source : string;
  chunk_id : Z;
  token_count : Z
}.

(** The service object.  [_tokenizer] is the [tiktoken] encoding when the
    import succeeded, given by the number of tokens it assigns to a text. *)
Record ChunkingService := mkChunkingService {
  target_chunk_size : Z;
  min_chunk_size : Z;
  max_chunk_size : Z;
  overlap_tokens : Z;
  _tokenizer : option (string -> Z)
}.

(** The constructor: four assignments and the optional import. *)
Definition ChunkingService_init (target_chunk_size min_chunk_size
                                 max_chunk_size overlap_tokens : Z)
           (tiktoken : option (string -> Z)) : ChunkingService :=
  mkChunkingService target_chunk_size min_chunk_size max_chunk_size
                    overlap_tokens tiktoken.

(** [create_chunking_service(target_size, overlap)] *)
Definition create_chunking_service (target_size overlap : Z)
           (tiktoken : option (string -> Z)) : ChunkingService :=
  ChunkingService_init target_size 100 800 overlap tiktoken.

Definition count_tokens (self : ChunkingService) (text : string) : Z :=
  match _tokenizer self with
  | Some encoded_length => encoded_length text
  | None => PyStr.len text / 4
  end.

(** *** The two regular expressions *)

Definition newline : ascii := ascii_of_N 10.

(** The longest run of whitespace in front of [s], and what follows. *)
Fixpoint span_space (s : string) : string * string :=
  match s with
  | EmptyString => (EmptyString, EmptyString)
  | String c s' =>
      if PyStr.is_space c
      then let '(run, rest) := span_space s' in (String c run, rest)
      else (EmptyString, s)
  end.

(** What is left of a whitespace run after its last line feed. *)
Fixpoint after_last_newline (run : string) : option string :=
  match run with
  | EmptyString => None
  | String c run' =>
      match after_last_newline run' with
      | Some tail => Some tail
      | None => if Ascii.eqb c newline then Some run' else None
      end
  end.

(** [\s*\n] matched greedily right after a line feed: the star takes the
    whole whitespace run and gives back up to its last line feed.  The
    result is the input after the match. *)
Definition match_blank_tail (s : string) : option string :=
  let '(run, rest) := span_space s in
  (fun tail => tail +:+ rest) <$> after_last_newline run.

(** [re.split(r'\n\s*\n', text)]: [cur] is the piece being read. *)
Fixpoint split_blank_lines (fuel : nat) (cur s : string) : list string :=
  match fuel with
  | O => [cur +:+ s]
  | S fuel' =>
      match s with
      | EmptyString => [cur]
      | String c s' =>
          if Ascii.eqb c newline then
            match match_blank_tail s' with
            | Some rest => cur :: split_blank_lines fuel' EmptyString rest
            | None => split_blank_lines fuel' (cur +:+ String c EmptyString) s'
            end
          else split_blank_lines fuel' (cur +:+ String c EmptyString) s'
      end
  end.

Definition re_split_paragraphs (text : string) : list string :=
  split_blank_lines (S (String.length text)) EmptyString text.

Definition is_sentence_end (c : ascii) : bool :=
  Ascii.eqb c "." || Ascii.eqb c "!" || Ascii.eqb c "?".

(** [re.split(r'(?<=[.!?])\s+', text)]: [after_end] says that the
    character just read ends a sentence, [in_gap] that a separator is being
    skipped. *)
Fixpoint split_sentence_gaps (after_end in_gap : bool) (cur s : string)
  : list string :=
  match s with
  | EmptyString => [cur]
  | String c s' =>
      if PyStr.is_space c && in_gap then split_sentence_gaps false true cur s'
      else if PyStr.is_space c && after_end
           then cur :: split_sentence_gaps false true EmptyString s'
           else split_sentence_gaps (is_sentence_end c) false
                                    (cur +:+ String c EmptyString) s'
  end.

Definition re_split_sentences (text : string) : list string :=
  split_sentence_gaps false false EmptyString text.

(** [[s.strip() for s in pieces if s.strip()]] *)
Definition strip_nonempty (pieces : list string) : list string :=
  omap (fun s => let t := PyStr.strip s in
                 if PyStr.truthy t then Some t else None) pieces.

Definition _split_into_sentences (text : string) : list string :=
  strip_nonempty (re_split_sentences text).

Definition _split_into_paragraphs (text : string) : list string :=
  strip_nonempty (re_split_paragraphs text).

(** *** Overlap *)

(** The loop over [reversed(sentences)], stopped by [break]. *)
Fixpoint overlap_loop (self : ChunkingService) (rev_sentences : list string)
         (overlap_text : string) : string :=
  match rev_sentences with
  | [] => overlap_text
  | sentence :: rest =>
      let test_text :=
        if PyStr.truthy overlap_text
        then sentence +:+ " " +:+ overlap_text else sentence in
      if count_tokens self test_text <=? overlap_tokens self
      then overlap_loop self rest test_text
      else overlap_text
  end.

Definition _get_overlap_text (self : ChunkingService) (text : string) : string :=
  if PyStr.truthy text
  then PyStr.strip (overlap_loop self (rev (_split_into_sentences text)) "")
  else "".

(** *** [chunk_text] *)

(** The variables of the loop over the paragraphs. *)
Record loop_state := mkState {
  chunks : list Chunk;
  current_chunk_text : string;
  current_chunk_start : Z;
  next_chunk_id : Z;
  char_position : Z
}.

Definition initial_state : loop_state := mkState [] "" 0 0 0.

Definition paragraph_break : string := String newline (String newline EmptyString).

(** One iteration of [for para in paragraphs]. *)
Definition chunk_step (self : ChunkingService) (source : string)
           (st : loop_state) (para : string) : loop_state :=
  let para_tokens := count_tokens self para in
  let current_tokens := count_tokens self (current_chunk_text st) in
  let st' :=
    if PyStr.truthy (current_chunk_text st)
       && (max_chunk_size self <? current_tokens + para_tokens)
    then
      let '(chunks', chunk_id') :=
        if min_chunk_size self <=? current_tokens
        then (chunks st ++ [mkChunk (PyStr.strip (current_chunk_text st))
                                    (current_chunk_start st) (char_position st)
                                    source (next_chunk_id st) current_tokens],
              next_chunk_id st + 1)
        else (chunks st, next_chunk_id st) in
      let overlap_text := _get_overlap_text self (current_chunk_text st) in
      mkState chunks'
              (if PyStr.truthy overlap_text
               then overlap_text +:+ paragraph_break +:+ para else para)
              (char_position st) chunk_id' (char_position st)
    else if PyStr.truthy (current_chunk_text st)
    then mkState (chunks st)
                 (current_chunk_text st +:+ paragraph_break +:+ para)
                 (current_chunk_start st) (next_chunk_id st) (char_position st)
    else mkState (chunks st) para (char_position st)
                 (next_chunk_id st) (char_position st) in
  mkState (chunks st') (current_chunk_text st') (current_chunk_start st')
          (next_chunk_id st') (char_position st' + (PyStr.len para + 2)).

Definition chunk_loop (self : ChunkingService) (source : string)
           (paragraphs : list string) : loop_state :=
  fold_left (chunk_step self source) paragraphs initial_state.

(** The chunk built from the buffer after the loop. *)
Definition last_chunk (self : ChunkingService) (source : string)
           (st : loop_state) : Chunk :=
  mkChunk (PyStr.strip (current_chunk_text st)) (current_chunk_start st)
          (char_position st) source (next_chunk_id st)
          (count_tokens self (current_chunk_text st)).

(** The statement under the comment [# Don't forget the last chunk]. *)
Definition emit_last (self : ChunkingService) (source : string)
           (st : loop_state) : list Chunk :=
  if PyStr.truthy (current_chunk_text st)
     && (min_chunk_size self <=? count_tokens self (current_chunk_text st))
  then chunks st ++ [last_chunk self source st]
  else chunks st.

Definition chunk_text (self : ChunkingService) (text : string) (source : string)
  : list Chunk :=
  if negb (PyStr.truthy text) || negb (PyStr.truthy (PyStr.strip text)) then []
  else emit_last self source
                 (chunk_loop self source (_split_into_paragraphs text)).

(** *** Notions used in the statements *)

(** Every chunk carries at least [min_chunk_size] tokens. *)
Definition large_enough (self : ChunkingService) (c : Chunk) : Prop :=
  min_chunk_size self <= token_count c.

(** The text used in the examples: a paragraph of sixteen characters, a
    blank line, a paragraph of four. *)
Definition two_paragraphs : string :=
  "aaaaaaaaaaaaaaaa" +:+ paragraph_break +:+ "bbbb".

Definition forty : string := "aaaaaaaaaaaaaaaaaaaaaaaaaaaaaaaaaaaaaaaa".

End Chunking.

(** ** [services/embedding_service.py] *)

Module Embedding.

Section WithModel.

(** The array type of one embedding, the sentence-transformer model
    ([model.encode] on a batch embeds each text on its own) and the
    digest [hashlib.md5(...).hexdigest()]. *)
Context {V : Type}.
Variable encode : string -> V.
Variable md5 : string -> string.

(** The service object; [disk] is the content of the [.npy] files, by
    path. *)
Record EmbeddingService := mkEmbeddingService {
  model_name : string;
  use_cache : bool;
  cache_dir : string;
  _cache : gmap string V;
  disk : gmap string V
}.

Definition _get_cache_key (self : EmbeddingService) (text : string) : string :=
  md5 (model_name self +:+ ":" +:+ text).

Definition cache_file (self : EmbeddingService) (cache_key : string) : string :=
  cache_dir self +:+ "/" +:+ cache_key +:+ ".npy".

(** [_get_cached_embedding]: a hit on disk is copied to memory. *)
Definition _get_cached_embedding (self : EmbeddingService) (text : string)
  : option V * EmbeddingService :=
  if negb (use_cache self) then (None, self)
  else
    let cache_key := _get_cache_key self text in
    match _cache self !! cache_key with
    | Some embedding => (Some embedding, self)
    | None =>
        if PyStr.truthy (cache_dir self) then
          match disk self !! cache_file self cache_key with
          | Some embedding =>
              (Some embedding,
               mkEmbeddingService (model_name self) (use_cache self)
                 (cache_dir self)
                 (<[cache_key := embedding]> (_cache self)) (disk self))
          | None => (None, self)
          end
        else (None, self)
    end.

Definition _cache_embedding (self : EmbeddingService) (text : string)
           (embedding : V) : EmbeddingService :=
  if negb (use_cache self) then self
  else
    let cache_key := _get_cache_key self text in
    mkEmbeddingService (model_name self) (use_cache self) (cache_dir self)
      (<[cache_key := embedding]> (_cache self))
      (if PyStr.truthy (cache_dir self)
       then <[cache_file self cache_key := embedding]> (disk self)
       else disk self).

Definition embed_text (self : EmbeddingService) (text : string)
  : V * EmbeddingService :=
  match _get_cached_embedding self text with
  | (Some cached, self') => (cached, self')
  | (None, self') =>
      let embedding := encode text in
      (embedding, _cache_embedding self' text embedding)
  end.

(** The local lists of [embed_texts]. *)
Record batch := mkBatch {
  embeddings : list (nat * V);
  texts_to_embed : list string;
  indices_to_embed : list nat
}.

(** [for i, text in enumerate(texts)], from index [i] on. *)
Fixpoint scan_cache (self : EmbeddingService) (i : nat) (texts : list string)
         (b : batch) : batch * EmbeddingService :=
  match texts with
  | [] => (b, self)
  | text :: rest =>
      match _get_cached_embedding self text with
      | (Some cached, self') =>
          scan_cache self' (S i) rest
            (mkBatch (embeddings b ++ [(i, cached)])
                     (texts_to_embed b) (indices_to_embed b))
      | (None, self') =>
          scan_cache self' (S i) rest
            (mkBatch (embeddings b) (texts_to_embed b ++ [text])
                     (indices_to_embed b ++ [i]))
      end
  end.

(** [indices_to_embed[texts_to_embed.index(text)]]; the default stands
    where Python would raise, which the loop below never reaches. *)
Definition original_index (b : batch) (text : string) : nat :=
  default 0%nat (PyList.index text (texts_to_embed b)
                   ≫= fun k => indices_to_embed b !! k).

(** [for text, embedding in zip(texts_to_embed, new_embeddings)] *)
Fixpoint store_new (self : EmbeddingService) (b : batch)
         (pairs : list (string * V)) (acc : list (nat * V))
  : list (nat * V) * EmbeddingService :=
  match pairs with
  | [] => (acc, self)
  | (text, embedding) :: rest =>
      store_new (_cache_embedding self text embedding) b rest
                (acc ++ [(original_index b text, embedding)])
  end.

Definition by_index (x y : nat * V) : bool := (x.1 <=? y.1)%nat.

Definition embed_texts (self : EmbeddingService) (texts : list string)
  : list V * EmbeddingService :=
  match texts with
  | [] => ([], self)
  | _ =>
      let '(b, self1) := scan_cache self 0 texts (mkBatch [] [] []) in
      let '(all, self2) :=
        match texts_to_embed b with
        | [] => (embeddings b, self1)
        | _ =>
            let new_embeddings := map encode (texts_to_embed b) in
            store_new self1 b (zip (texts_to_embed b) new_embeddings)
                      (embeddings b)
        end in
      (map snd (PyList.stable_sort by_index all), self2)
  end.

End WithModel.

(** *** Notions used in the statements *)

(** A service whose memory and disk caches are empty. *)
Definition fresh {V} (name : string) : @EmbeddingService V :=
  mkEmbeddingService name true ".embedding_cache" ∅ ∅.

(** A stand-in model for the examples: the code points of the text. *)
Definition code_points (text : string) : list Z :=
  map (fun c => Z.of_N (N_of_ascii c)) (list_ascii_of_string text).

End Embedding.

(** ** [services/vector_store.py]

    The store without FAISS: [self._faiss] is [None] and the embeddings are
    kept in the list [self._embeddings]. *)

Module VectorStore.

Open Scope R_scope.

(** A call either returns or raises the named exception. *)
Inductive result (A : Type) :=
| Ok (value : A)
| Raise (exception : string).
Arguments Ok {A} value.
Arguments Raise {A} exception.

(** Values found in a metadata [dict]. *)
Inductive value := VStr (s : string) | VInt (n : Z).
Abbreviation Dict := (gmap string value).

Record SearchResult := mkSearchResult {
  text : string;
  source : value;
  chunk_id : value;
  score : R;
  metadata : Dict
}.

Record VectorStore := mkVectorStore {
  embedding_dim : Z;
  _texts : list string;
  _metadata : list Dict;
  _embeddings : list (list R)
}.

Definition VectorStore_init (embedding_dim : Z) : VectorStore :=
  mkVectorStore embedding_dim [] [] [].

(** [np.dot] of two vectors and [np.linalg.norm] of one. *)
Definition dot (u v : list R) : R := foldr Rplus 0 (zip_with Rmult u v).
Definition norm (v : list R) : R := sqrt (dot v v).

(** One row of [embeddings / np.where(norms == 0, 1, norms)]. *)
Definition normalize_row (row : list R) : list R :=
  let n := norm row in
  let n' := if Req_dec_T n 0 then 1 else n in
  map (fun x => x / n') row.

(** [add]; a [metadata] that is [None] or empty is replaced by one empty
    [dict] per text. *)
Definition add (self : VectorStore) (texts : list string)
           (embeddings : list (list R)) (metadata : option (list Dict))
  : VectorStore :=
  match texts with
  | [] => self
  | _ =>
      mkVectorStore (embedding_dim self)
        (_texts self ++ texts)
        (_metadata self ++ match metadata with
                           | Some (m :: ms) => m :: ms
                           | _ => map (fun _ => ∅) texts
                           end)
        (_embeddings self ++ map normalize_row embeddings)
  end.

Definition Rleb (x y : R) : bool := if Rle_dec x y then true else false.
Definition Rltb (x y : R) : bool := if Rlt_dec x y then true else false.

(** [np.dot(np.array(self._embeddings), query)]: numpy asks for a
    rectangular, non-empty matrix whose rows are as long as the query. *)
Definition row_scores (rows : list (list R)) (query : list R) : result (list R) :=
  match rows with
  | [] => Raise "ValueError"
  | _ =>
      if forallb (fun row => (length row =? length query)%nat) rows
      then Ok (map (fun row => dot row query) rows)
      else Raise "ValueError"
  end.

(** [enumerate] *)
Definition enumerate {A} (l : list A) : list (nat * A) := zip (seq 0 (length l)) l.

(** [np.argsort(scores)], each index paired with its score: ascending,
    equal scores in index order. *)
Definition score_leb (a b : nat * R) : bool := Rleb a.2 b.2.

Definition argsort (scores : list R) : list (nat * R) :=
  PyList.stable_sort score_leb (enumerate scores).

(** [indices = np.argsort(scores)[::-1][:top_k]] together with
    [scores = scores[indices]]. *)
Definition top_indices (scores : list R) (top_k : Z) : list (nat * R) :=
  PyList.slice_to top_k (rev (argsort scores)).

Definition make_result (self : VectorStore) (idx : nat) (text : string) (score : R)
  : SearchResult :=
  let meta := default ∅ (_metadata self !! idx) in
  mkSearchResult text
    (default (VStr "unknown") (meta !! "source"))
    (default (VInt (Z.of_nat idx)) (meta !! "chunk_id"))
    score meta.

(** The loop [for score, idx in zip(scores, indices)]. *)
Fixpoint collect (self : VectorStore) (min_score : R) (hits : list (nat * R))
  : result (list SearchResult) :=
  match hits with
  | [] => Ok []
  | (idx, score) :: rest =>
      if Rltb score min_score then collect self min_score rest
      else
        match _texts self !! idx with
        | None => Raise "IndexError"
        | Some text =>
            match collect self min_score rest with
            | Ok results => Ok (make_result self idx text score :: results)
            | Raise e => Raise e
            end
        end
  end.

(** The entries that pass the threshold, as (index, score). *)
Definition kept_hits (min_score : R) (hits : list (nat * R)) : list (nat * R) :=
  filter (fun h => Rltb h.2 min_score = false) hits.

Definition search (self : VectorStore) (query_embedding : list R)
           (top_k : Z) (min_score : R) : result (list SearchResult) :=
  match _texts self with
  | [] => Ok []
  | _ =>
      let query_norm := norm query_embedding in
      if Rgt_dec query_norm 0 then
        let query_normalized := map (fun x => x / query_norm) query_embedding in
        match row_scores (_embeddings self) query_normalized with
        | Ok scores => collect self min_score (top_indices scores top_k)
        | Raise e => Raise e
        end
      else Ok []
  end.

(** [size] *)
Definition size (self : VectorStore) : Z := Z.of_nat (length (_texts self)).

Definition clear (self : VectorStore) : VectorStore :=
  mkVectorStore (embedding_dim self) [] [] [].

(** *** Notions used in the statements *)

(** The arguments of one call of [add]. *)
Record add_call := mkAddCall {
  call_texts : list string;
  call_embeddings : list (list R);
  call_metadata : option (list Dict)
}.

Definition add_all (self : VectorStore) (calls : list add_call) : VectorStore :=
  fold_left (fun s c => add s (call_texts c) (call_embeddings c) (call_metadata c))
            calls self.

(** The rows handed to the store by the calls that do not return early. *)
Definition submitted_rows (calls : list add_call) : list (list R) :=
  concat (map (fun c => match call_texts c with
                        | [] => []
                        | _ => call_embeddings c
                        end) calls).

(** What [add] maintains when it is given as many rows as texts, all of
    dimension [d]: one row per text, every row of dimension [d]. *)
Definition store_ok (d : nat) (self : VectorStore) : Prop :=
  length (_embeddings self) = length (_texts self)
  /\ Forall (fun row => length row = d) (_embeddings self).

(** Ascending and descending order of (index, score) pairs. *)
Definition ascending (a b : nat * R) : Prop := a.2 <= b.2.
Definition descending (a b : nat * R) : Prop := b.2 <= a.2.

(** A result carries the score and the text of the pair it was built
    from. *)
Definition built_from (self : VectorStore) (h : nat * R) (r : SearchResult) : Prop :=
  score r = h.2 /\ _texts self !! h.1 = Some (text r).

(** Two texts stored with the same vector, for the examples. *)
Definition twins : VectorStore :=
  add (VectorStore_init 1) ["first"; "second"] [[1]; [1]] None.

End VectorStore.

(** ** [EmbeddingService.similarity] *)

Module Similarity.
Import VectorStore.
Open Scope R_scope.

(** The two norms are tested before the dot product is taken, and numpy
    refuses the dot product of vectors of different lengths. *)
Definition similarity (embedding1 embedding2 : list R) : result R :=
  let norm1 := norm embedding1 in
  let norm2 := norm embedding2 in
  if Req_dec_T norm1 0 then Ok 0
  else if Req_dec_T norm2 0 then Ok 0
  else if (length embedding1 =? length embedding2)%nat
       then Ok (dot embedding1 embedding2 / (norm1 * norm2))
       else Raise "ValueError".

End Similarity.

(** ** [VectorStore.save] and [VectorStore.load] *)

Module VectorStoreIO.
Import VectorStore.




End VectorStoreIO.

(** ** [ChunkingService.chunk_documents] and [services/rag_service.py] *)

Module Rag.

(** [chunk_documents]: a document is a [dict] with the keys [name] and
    [content]. *)
Definition chunk_document (self : Chunking.ChunkingService)
           (doc : gmap string string) : list Chunking.Chunk :=
  let name := default "unknown" (doc !! "name") in
  let content := default "" (doc !! "content") in
  Chunking.chunk_text self content name.

Definition chunk_documents (self : Chunking.ChunkingService)
           (documents : list (gmap string string)) : list Chunking.Chunk :=
  fold_left (fun all_chunks doc => all_chunks ++ chunk_document self doc)
            documents [].

#[global] Instance value_eq_dec : EqDecision VectorStore.value.
Proof. solve_decision. Defined.

#[global] Instance value_countable : Countable VectorStore.value.
Proof.
  refine (inj_countable'
            (fun v => match v with
                      | VectorStore.VStr s => inl s
                      | VectorStore.VInt n => inr n
                      end)
            (fun x => match x with
                      | inl s => VectorStore.VStr s
                      | inr n => VectorStore.VInt n
                      end) _).
  intros []; reflexivity.
Defined.

Record RAGContext := mkRAGContext {
  chunks : list VectorStore.SearchResult;
  context_text : string;
  sources : gset VectorStore.value
}.

Definition empty_context : RAGContext := mkRAGContext [] "" ∅.

Section WithModel.

(** The embedding model and the digest, as for the embedder, and the
    rendering of a float with two decimals ([f"{score:.2f}"]). *)
Variable encode : string -> list R.
Variable md5 : string -> string.
Variable format_score : R -> string.

Record RAGService := mkRAGService {
  chunker : Chunking.ChunkingService;
  embedder : @Embedding.EmbeddingService (list R);
  store : VectorStore.VectorStore;
  _indexed_sources : gmap string Z
}.

(** The metadata [dict] of one chunk. *)
Definition chunk_metadata (chunk : Chunking.Chunk) : gmap string VectorStore.value :=
  <["source" := VectorStore.VStr (Chunking.source chunk)]>
  (<["chunk_id" := VectorStore.VInt (Chunking.chunk_id chunk)]>
  (<["start_idx" := VectorStore.VInt (Chunking.start_idx chunk)]>
  (<["end_idx" := VectorStore.VInt (Chunking.end_idx chunk)]>
  (<["token_count" := VectorStore.VInt (Chunking.token_count chunk)]> ∅)))).

(** One round of the loop that counts chunks per source. *)
Definition count_source (indexed : gmap string Z) (chunk : Chunking.Chunk)
  : gmap string Z :=
  let indexed' :=
    match indexed !! Chunking.source chunk with
    | None => <[Chunking.source chunk := 0%Z]> indexed
    | Some _ => indexed
    end in
  <[Chunking.source chunk :=
      (default 0%Z (indexed' !! Chunking.source chunk) + 1)%Z]> indexed'.

Definition index_documents (self : RAGService) (documents : list (gmap string string))
  : Z * RAGService :=
  match documents with
  | [] => (0%Z, self)
  | _ =>
      let all_chunks := chunk_documents (chunker self) documents in
      match all_chunks with
      | [] => (0%Z, self)
      | _ =>
          let texts := map Chunking.text all_chunks in
          let metadata := map chunk_metadata all_chunks in
          let '(embeddings, embedder') :=
            Embedding.embed_texts encode md5 (embedder self) texts in
          let store' := VectorStore.add (store self) texts embeddings (Some metadata) in
          let indexed' := fold_left count_source all_chunks (_indexed_sources self) in
          (Z.of_nat (length all_chunks),
           mkRAGService (chunker self) embedder' store' indexed')
      end
  end.

(** [index_uploaded_files]: files without content are left out. *)
Definition text_doc (f : gmap string string) : option (gmap string string) :=
  if PyStr.truthy (default "" (f !! "content"))
  then Some (<["name" := default "file" (f !! "name")]>
             (<["content" := default "" (f !! "content")]> ∅))
  else None.

Definition index_uploaded_files (self : RAGService)
           (uploaded_files : list (gmap string string)) : Z * RAGService :=
  index_documents self (omap text_doc uploaded_files).

(** [str(v)] inside an f-string. *)
Definition format_value (v : VectorStore.value) : string :=
  match v with
  | VectorStore.VStr s => s
  | VectorStore.VInt n => pretty n
  end.

(** One entry of [context_parts]; [chunk_id + 1] is a [TypeError] when the
    metadata holds a string there. *)
Definition context_part (r : VectorStore.SearchResult) : VectorStore.result string :=
  match VectorStore.chunk_id r with
  | VectorStore.VInt n =>
      VectorStore.Ok
        ("[Source: " +:+ format_value (VectorStore.source r)
         +:+ ", Chunk " +:+ pretty (n + 1)%Z
         +:+ ", Relevance: " +:+ format_score (VectorStore.score r) +:+ "]"
         +:+ String Chunking.newline (VectorStore.text r))
  | VectorStore.VStr _ => VectorStore.Raise "TypeError"
  end.

Fixpoint context_parts (results : list VectorStore.SearchResult)
  : VectorStore.result (list string) :=
  match results with
  | [] => VectorStore.Ok []
  | r :: rest =>
      match context_part r with
      | VectorStore.Ok part =>
          match context_parts rest with
          | VectorStore.Ok parts => VectorStore.Ok (part :: parts)
          | VectorStore.Raise e => VectorStore.Raise e
          end
      | VectorStore.Raise e => VectorStore.Raise e
      end
  end.

(** [sep.join(parts)] *)
Fixpoint join (sep : string) (parts : list string) : string :=
  match parts with
  | [] => ""
  | [part] => part
  | part :: rest => part +:+ sep +:+ join sep rest
  end.

Definition separator : string :=
  Chunking.paragraph_break +:+ "---" +:+ Chunking.paragraph_break.

(** [retrieve]; the list [sources] is made from a set, whose order Python
    leaves open, and is kept as that set. *)
Definition retrieve (self : RAGService) (query : string) (top_k : Z) (min_score : R)
  : VectorStore.result RAGContext * RAGService :=
  if (VectorStore.size (store self) =? 0)%Z then (VectorStore.Ok empty_context, self)
  else
    let '(query_embedding, embedder') :=
      Embedding.embed_text encode md5 (embedder self) query in
    let self' := mkRAGService (chunker self) embedder' (store self)
                              (_indexed_sources self) in
    match VectorStore.search (store self) query_embedding top_k min_score with
    | VectorStore.Raise e => (VectorStore.Raise e, self')
    | VectorStore.Ok [] => (VectorStore.Ok empty_context, self')
    | VectorStore.Ok results =>
        match context_parts results with
        | VectorStore.Raise e => (VectorStore.Raise e, self')
        | VectorStore.Ok parts =>
            (VectorStore.Ok
               (mkRAGContext results (join separator parts)
                             (list_to_set (map VectorStore.source results))),
             self')
        end
    end.

Definition rag_prompt_head : string :=
  "I have retrieved the following relevant information from uploaded documents:"
  +:+ Chunking.paragraph_break.

Definition rag_prompt_middle : string :=
  Chunking.paragraph_break +:+ "---" +:+ Chunking.paragraph_break
  +:+ "Based on the above context, please answer this question:"
  +:+ String Chunking.newline "".

Definition rag_prompt_tail : string :=
  Chunking.paragraph_break +:+ "Important: "
  +:+ String Chunking.newline "- Use the provided context to answer accurately"
  +:+ String Chunking.newline "- Cite sources when referencing specific information"
  +:+ String Chunking.newline
        "- If the context doesn't contain the answer, say so clearly".

Definition get_rag_prompt (query : string) (context : RAGContext) : string :=
  match chunks context with
  | [] => query
  | _ => rag_prompt_head +:+ context_text context +:+ rag_prompt_middle
         +:+ query +:+ rag_prompt_tail
  end.

Definition clear (self : RAGService) : RAGService :=
  mkRAGService (chunker self) (embedder self) (VectorStore.clear (store self)) ∅.

Definition total_chunks (self : RAGService) : Z := VectorStore.size (store self).

Definition has_indexed_content (self : RAGService) : bool :=
  (0 <? VectorStore.size (store self))%Z.

End WithModel.

End Rag.

(** ** Notions used in further statements *)

Module GatewayNotions.
Import AIService.

(** The decimal digits. *)
Definition is_digit (d : ascii) : bool :=
  let n := N_of_ascii d in ((48 <=? n) && (n <=? 57))%N.

(** The providers the [except] branch turns to. *)
Definition tried (self : AIService) (enable_fallback : bool) : list string :=
  if enable_fallback then fallback_candidates self else [].

End GatewayNotions.

Module ChunkerNotions.
Import Chunking.

(** A string made of whitespace only. *)
Definition all_space (s : string) : bool :=
  forallb PyStr.is_space (list_ascii_of_string s).

(** A piece that is kept is not empty and carries no whitespace at either
    end. *)
Definition trimmed (s : string) : Prop := s <> "" /\ PyStr.strip s = s.

(** The chunk an iteration closes. *)
Definition closed_chunk (self : ChunkingService) (source : string) (st : loop_state)
  : Chunk :=
  mkChunk (PyStr.strip (current_chunk_text st)) (current_chunk_start st)
          (char_position st) source (next_chunk_id st)
          (count_tokens self (current_chunk_text st)).

(** Chunk ids count up from zero: the chunk at position [i] of the result
    has id [i]. *)
Definition numbered (l : list Chunk) : Prop :=
  forall (i : nat) c, l !! i = Some c -> chunk_id c = Z.of_nat i.

(** Offsets: every chunk carries the source it was asked for, its offsets
    are in order, and a chunk starts where the one before it ended or
    later. *)
Definition well_placed (source : string) (c : Chunk) : Prop :=
  Chunking.source c = source /\ 0 <= start_idx c <= end_idx c.

Definition offsets_ok (source : string) (st : loop_state) : Prop :=
  0 <= current_chunk_start st <= char_position st
  /\ Forall (well_placed source) (chunks st)
  /\ Forall (fun c => end_idx c <= current_chunk_start st) (chunks st)
  /\ StronglySorted (fun a b => end_idx a <= start_idx b) (chunks st).

(** One when the buffer holds text, zero when it is empty. *)
Definition buffer_slot (st : loop_state) : nat :=
  if PyStr.truthy (current_chunk_text st) then 1 else 0.

End ChunkerNotions.

Module EmbedderNotions.
Import Embedding.

Section WithModel.

Context {V : Type}.
Variable encode : string -> V.
Variable md5 : string -> string.

(** What the cache holds for a text, in memory or on disk. *)
Definition cached_value (self : @EmbeddingService V) (text : string) : option V :=
  (_get_cached_embedding md5 self text).1.

(** The embedding of a text for a service: the cached one if there is one,
    the model's otherwise. *)
Definition embedding_of (self : @EmbeddingService V) (text : string) : V :=
  default (encode text) (cached_value self text).

(** The texts of a batch that the cache does not hold. *)
Definition uncached (self : @EmbeddingService V) (texts : list string) : list string :=
  filter (fun text => cached_value self text = None) texts.

(** The cached texts of a batch with their positions, counted from [i],
    and the positions and texts that are not cached. *)
Fixpoint hits (self : @EmbeddingService V) (i : nat) (texts : list string)
  : list (nat * V) :=
  match texts with
  | [] => []
  | text :: rest =>
      match cached_value self text with
      | Some cached => (i, cached) :: hits self (S i) rest
      | None => hits self (S i) rest
      end
  end.

Fixpoint misses (self : @EmbeddingService V) (i : nat) (texts : list string)
  : list (nat * string) :=
  match texts with
  | [] => []
  | text :: rest =>
      match cached_value self text with
      | Some _ => misses self (S i) rest
      | None => (i, text) :: misses self (S i) rest
      end
  end.

(** Order by position. *)
Definition index_le (x y : nat * V) : Prop := (x.1 <= y.1)%nat.

End WithModel.

End EmbedderNotions.

Module StoreNotions.
Import VectorStore.
Open Scope R_scope.

(** One metadata entry and one row per text. *)
Definition aligned (self : VectorStore) : Prop :=
  length (_metadata self) = length (_texts self)
  /\ length (_embeddings self) = length (_texts self).

(** The query as [search] compares it: divided by its norm. *)
Definition against (query : list R) : list R :=
  map (fun x => x / norm query) query.

(** Rows as [add] leaves them. *)
Definition unit_or_zero (row : list R) : Prop := norm row = 1 \/ norm row = 0.

End StoreNotions.

(** * Properties *)

(** ** Token budget and provider fallback *)

Module AIServiceFacts.
Import AIService.

Lemma insert_after_head {A} (x y : A) (l : list A) :
  PyList.insert_at 1 x (y :: l) = y :: x :: l.
Proof. reflexivity. Qed.

(** With the system prompt at the head of [result], the loop puts every
    message it keeps right behind it, so the kept messages come out in the
    order of the input. *)
Lemma trim_loop_behind_head budget rev_messages first kept tokens :
  exists n : nat,
    trim_loop budget rev_messages (first :: kept) tokens
    = first :: rev (take n rev_messages) ++ kept.
Proof.
  revert kept tokens.
  induction rev_messages as [|msg rest IH]; intros kept tokens; simpl.
  - exists 0%nat. reflexivity.
  - destruct (tokens + estimate_tokens (content msg) <=? budget).
    + rewrite insert_after_head.
      destruct (IH (msg :: kept) (tokens + estimate_tokens (content msg))) as [n Hn].
      exists (S n). rewrite Hn. simpl.
      rewrite <- app_assoc. reflexivity.
    + exists 0%nat. reflexivity.
Qed.

(** The branch of [trim_to_token_budget] that finds a system prompt keeps it
    and a suffix of the other messages, in their order. *)
Lemma trim_with_system_prompt first others budget :
  role first = "system" ->
  exists dropped kept,
    others = dropped ++ kept
    /\ trim_to_token_budget (first :: others) budget = first :: kept.
Proof.
  intros Hrole. unfold trim_to_token_budget.
  destruct (sum_tokens (first :: others) <=? budget).
  - exists [], others. split; reflexivity.
  - rewrite Hrole. simpl String.eqb.
    destruct (trim_loop_behind_head budget (rev others) first []
                (estimate_tokens (content first))) as [n Hn].
    exists (rev (drop n (rev others))), (rev (take n (rev others))).
    split.
    + rewrite <- rev_app_distr, take_drop, rev_involutive. reflexivity.
    + rewrite Hn, app_nil_r. reflexivity.
Qed.

(** C6, on the code.  Three one-token turns and no system prompt, with a
    budget of two tokens: the two newest turns are kept, but the newest one
    is returned in front of the older one, so the result is not a suffix of
    the input in its original order. *)
Theorem trim_without_system_prompt_swaps :
  trim_to_token_budget [user "aaaa"; assistant "bbbb"; user "cccc"] 2
  = [user "cccc"; assistant "bbbb"].
Proof. reflexivity. Qed.

(** The same turns behind a system prompt come back in order. *)
Example trim_with_system_prompt_keeps_order :
  trim_to_token_budget
    [system "ssss"; user "aaaa"; assistant "bbbb"; user "cccc"] 3
  = [system "ssss"; assistant "bbbb"; user "cccc"].
Proof. reflexivity. Qed.

(** *** Fallback *)

Lemma fallback_loop_skips self messages name rest :
  is_candidate self name = false ->
  fallback_loop self messages (name :: rest) = fallback_loop self messages rest.
Proof.
  unfold is_candidate, usable. simpl.
  destruct (differs_from_current self name); [|reflexivity].
  destruct (dict_get name (providers self)) as [p|]; [|reflexivity].
  simpl. intros ->. reflexivity.
Qed.

Lemma fallback_loop_calls self messages name rest p :
  is_candidate self name = true ->
  dict_get name (providers self) = Some p ->
  fallback_loop self messages (name :: rest)
  = let '(chunks, out) := provider_stream p messages (fallback_model name) in
    let here := Invoke name :: yields_of name chunks in
    match out with
    | Completed => (here, true)
    | Raised _ =>
        let '(later, returned) := fallback_loop self messages rest in
        (here ++ later, returned)
    end.
Proof.
  unfold is_candidate, usable. intros Hc Hp. simpl. rewrite Hp in *.
  apply andb_true_iff in Hc as [-> ->]. reflexivity.
Qed.

Lemma invoked_app t1 t2 : invoked (t1 ++ t2) = invoked t1 ++ invoked t2.
Proof. unfold invoked. apply omap_app. Qed.

Lemma yielded_app t1 t2 : yielded (t1 ++ t2) = yielded t1 ++ yielded t2.
Proof. unfold yielded. apply omap_app. Qed.

Lemma chunk_sources_app t1 t2 :
  chunk_sources (t1 ++ t2) = chunk_sources t1 ++ chunk_sources t2.
Proof. unfold chunk_sources. apply omap_app. Qed.

Lemma invoked_yields name chunks : invoked (yields_of name chunks) = [].
Proof. induction chunks; simpl; auto. Qed.

Lemma yielded_yields name chunks : yielded (yields_of name chunks) = chunks.
Proof. induction chunks; simpl; [reflexivity|]. f_equal. assumption. Qed.

Lemma chunk_sources_yields name chunks :
  chunk_sources (yields_of name chunks) = map (fun _ => name) chunks.
Proof. induction chunks; simpl; [reflexivity|]. f_equal. assumption. Qed.

(** The loop starts no provider exactly when there is no candidate. *)
Lemma fallback_loop_invokes self messages names :
  invoked (fallback_loop self messages names).1 = []
  <-> filter (fun name => is_candidate self name = true) names = [].
Proof.
  induction names as [|name rest IH]; [simpl; tauto|].
  destruct (is_candidate self name) eqn:Hc.
  - rewrite filter_cons_True by assumption.
    assert (exists p, dict_get name (providers self) = Some p) as [p Hp].
    { unfold is_candidate, usable in Hc.
      destruct (dict_get name (providers self)) as [p|]; [eauto|].
      rewrite andb_false_r in Hc. discriminate. }
    rewrite (fallback_loop_calls _ _ _ _ p) by assumption.
    destruct (provider_stream p messages (fallback_model name)) as [chunks out].
    destruct out; [|destruct (fallback_loop self messages rest)]; simpl;
      split; discriminate.
  - rewrite filter_cons_False by (rewrite Hc; discriminate).
    rewrite fallback_loop_skips by assumption. exact IH.
Qed.

(** When the first candidate finishes, the loop is that one call. *)
Lemma fallback_loop_first_completes self messages names n1 rest p1 chunks1 :
  filter (fun name => is_candidate self name = true) names = n1 :: rest ->
  dict_get n1 (providers self) = Some p1 ->
  provider_stream p1 messages (fallback_model n1) = (chunks1, Completed) ->
  fallback_loop self messages names = (Invoke n1 :: yields_of n1 chunks1, true).
Proof.
  intros Hf Hp Hs.
  induction names as [|name names IH]; [discriminate|].
  destruct (is_candidate self name) eqn:Hc.
  - rewrite filter_cons_True in Hf by assumption.
    injection Hf as -> _.
    rewrite (fallback_loop_calls _ _ _ _ p1) by assumption.
    rewrite Hs. reflexivity.
  - rewrite filter_cons_False in Hf by (rewrite Hc; discriminate).
    rewrite fallback_loop_skips by assumption. auto.
Qed.

(** The trace of a call whose primary provider raises. *)
Lemma stream_trace_primary_raises self prompt history system_prompt
      enable_fallback name provider chunks e :
  select_provider self enable_fallback = Some (name, provider) ->
  is_available provider = true ->
  provider_stream provider (request_messages prompt history system_prompt)
                  (_current_model self) = (chunks, Raised e) ->
  stream_trace self prompt history system_prompt enable_fallback
  = let fb := if enable_fallback
              then fallback_loop self (request_messages prompt history system_prompt)
                                 (get_available_providers self)
              else ([], false) in
    (Invoke name :: yields_of name chunks) ++ fb.1
    ++ (if fb.2 then [] else [Yield FromGateway (error_message (classify_error e) e)]).
Proof.
  intros Hsel Hav Hs. unfold stream_trace, request_messages in *.
  rewrite Hsel, Hav, Hs.
  destruct enable_fallback.
  - destruct (fallback_loop _ _ _) as [fb returned]. simpl.
    destruct returned; [rewrite app_nil_r|]; reflexivity.
  - reflexivity.
Qed.

(** C2 as stated fails: the primary raises an error that [classify_error]
    files under [AUTH_ERROR], and the other provider is called all the same
    and answers. *)
Lemma auth_error_still_falls_back :
  let e := "Error code: 401 - invalid api_key" in
  let self := two_providers (failing [] e) (answering ["ok"]) in
  classify_error e = AUTH_ERROR
  /\ stream_trace self "hi" [] "" true
     = [Invoke "groq"; Invoke "gemini"; Yield (FromProvider "gemini") "ok"].
Proof. split; reflexivity. Qed.

(** C2, amended.  After a failure of the primary provider a further provider
    is started if and only if fallback is enabled and some other available
    provider is configured; the text of the error, hence its classification,
    plays no part. *)
Theorem fallback_whatever_the_error self prompt history system_prompt
        enable_fallback name provider chunks e :
  select_provider self enable_fallback = Some (name, provider) ->
  is_available provider = true ->
  provider_stream provider (request_messages prompt history system_prompt)
                  (_current_model self) = (chunks, Raised e) ->
  (1 < length (invoked (stream_trace self prompt history system_prompt
                                     enable_fallback)))%nat
  <-> enable_fallback = true /\ fallback_candidates self <> [].
Proof.
  intros Hsel Hav Hs.
  rewrite (stream_trace_primary_raises _ _ _ _ _ _ _ _ _ Hsel Hav Hs).
  cbv zeta. rewrite !invoked_app. simpl invoked at 1.
  rewrite invoked_yields. simpl app at 1.
  assert (forall b : bool, invoked (if b then [] else
            [Yield FromGateway (error_message (classify_error e) e)]) = []) as Hend
    by (intros []; reflexivity).
  rewrite Hend, app_nil_r.
  destruct enable_fallback.
  - unfold fallback_candidates.
    rewrite <- fallback_loop_invokes
      with (messages := request_messages prompt history system_prompt).
    destruct (invoked _) as [|n l]; simpl; split.
    + lia.
    + intros [_ H]. congruence.
    + intros _. split; [reflexivity|discriminate].
    + lia.
  - simpl. split; [lia|]. intros [H _]. discriminate.
Qed.

Lemma fallback_whatever_the_error_witness :
  let e := "Error code: 401 - invalid api_key" in
  let self := two_providers (failing [] e) (answering ["ok"]) in
  (1 < length (invoked (stream_trace self "hi" [] "" true)))%nat
  <-> true = true /\ fallback_candidates self <> [].
Proof.
  intros e self.
  apply (fallback_whatever_the_error self "hi" [] "" true "groq"
           (failing [] e) [] e); reflexivity.
Defined.

(** C3 as stated fails: the primary yields one chunk and then raises; the
    other provider is started and its answer follows the partial output, so
    the caller holds chunks of two providers. *)
Lemma partial_output_then_fallback :
  let self := two_providers (failing ["partial"] "connection reset")
                            (answering ["ok"]) in
  stream self "hi" [] "" true = ["partial"; "ok"]
  /\ invoked (stream_trace self "hi" [] "" true) = ["groq"; "gemini"]
  /\ chunk_sources (stream_trace self "hi" [] "" true) = ["groq"; "gemini"].
Proof. repeat split; reflexivity. Qed.

(** C3, amended.  When the primary provider raises, before or after
    yielding chunks, with fallback enabled and the first other available
    provider finishing: the caller receives the primary's chunks followed by
    all chunks of that fallback provider and no error message, those two
    providers are the ones started, and each chunk comes from the provider
    that yielded it. *)
Theorem partial_output_is_followed_by_fallback self prompt history system_prompt
        name provider partial e n1 others p1 chunks1 :
  select_provider self true = Some (name, provider) ->
  is_available provider = true ->
  provider_stream provider (request_messages prompt history system_prompt)
                  (_current_model self) = (partial, Raised e) ->
  fallback_candidates self = n1 :: others ->
  dict_get n1 (providers self) = Some p1 ->
  provider_stream p1 (request_messages prompt history system_prompt)
                  (fallback_model n1) = (chunks1, Completed) ->
  stream self prompt history system_prompt true = partial ++ chunks1
  /\ invoked (stream_trace self prompt history system_prompt true) = [name; n1]
  /\ chunk_sources (stream_trace self prompt history system_prompt true)
     = map (fun _ => name) partial ++ map (fun _ => n1) chunks1.
Proof.
  intros Hsel Hav Hs Hc Hp1 Hs1. unfold stream.
  rewrite (stream_trace_primary_raises _ _ _ _ _ _ _ _ _ Hsel Hav Hs).
  cbv zeta.
  rewrite (fallback_loop_first_completes _ _ _ _ _ _ _ Hc Hp1 Hs1).
  simpl fst. simpl snd. cbv iota. rewrite app_nil_r.
  repeat split.
  - rewrite yielded_app. simpl. rewrite !yielded_yields. reflexivity.
  - rewrite invoked_app. simpl. rewrite !invoked_yields. reflexivity.
  - rewrite chunk_sources_app. simpl. rewrite !chunk_sources_yields. reflexivity.
Qed.

Lemma partial_output_is_followed_by_fallback_witness :
  let self := two_providers (failing ["partial"] "connection reset")
                            (answering ["ok"]) in
  stream self "hi" [] "" true = ["partial"] ++ ["ok"]
  /\ invoked (stream_trace self "hi" [] "" true) = ["groq"; "gemini"]
  /\ chunk_sources (stream_trace self "hi" [] "" true)
     = map (fun _ => "groq") ["partial"] ++ map (fun _ => "gemini") ["ok"].
Proof.
  intros self.
  apply (partial_output_is_followed_by_fallback self "hi" [] "" "groq"
           (failing ["partial"] "connection reset") ["partial"]
           "connection reset" "gemini" [] (answering ["ok"]) ["ok"]);
    reflexivity.
Defined.

End AIServiceFacts.

(** ** The chunker *)

Module ChunkingFacts.
Import Chunking.

Example two_paragraphs_split :
  _split_into_paragraphs two_paragraphs = ["aaaaaaaaaaaaaaaa"; "bbbb"].
Proof. reflexivity. Qed.

(** One iteration changes [chunks] by at most one chunk at its end, and
    that chunk passed the test [current_tokens >= self.min_chunk_size]. *)
Lemma chunk_step_large_enough self source st para :
  Forall (large_enough self) (chunks st) ->
  Forall (large_enough self) (chunks (chunk_step self source st para)).
Proof.
  intros H. unfold chunk_step.
  destruct (PyStr.truthy (current_chunk_text st)
            && (max_chunk_size self
                <? count_tokens self (current_chunk_text st) + count_tokens self para)).
  - destruct (min_chunk_size self <=? count_tokens self (current_chunk_text st)) eqn:Hmin;
      simpl; [|assumption].
    apply Forall_app. split; [assumption|].
    constructor; [|constructor].
    unfold large_enough. simpl. lia.
  - destruct (PyStr.truthy (current_chunk_text st)); simpl; assumption.
Qed.

Lemma fold_chunk_step_large_enough self source paragraphs st :
  Forall (large_enough self) (chunks st) ->
  Forall (large_enough self)
         (chunks (fold_left (chunk_step self source) paragraphs st)).
Proof.
  revert st. induction paragraphs as [|para rest IH]; intros st H; simpl.
  - assumption.
  - apply IH, chunk_step_large_enough, H.
Qed.

Lemma chunk_loop_large_enough self source paragraphs :
  Forall (large_enough self) (chunks (chunk_loop self source paragraphs)).
Proof. apply fold_chunk_step_large_enough. constructor. Qed.

Lemma emit_last_large_enough self source st :
  Forall (large_enough self) (chunks st) ->
  Forall (large_enough self) (emit_last self source st).
Proof.
  intros H. unfold emit_last.
  destruct (PyStr.truthy (current_chunk_text st)); simpl; [|assumption].
  destruct (min_chunk_size self <=? count_tokens self (current_chunk_text st)) eqn:Hmin;
    [|assumption].
  apply Forall_app. split; [assumption|].
  constructor; [|constructor].
  unfold large_enough. simpl. lia.
Qed.

Lemma chunk_text_large_enough self text source :
  Forall (large_enough self) (chunk_text self text source).
Proof.
  unfold chunk_text.
  destruct (negb (PyStr.truthy text) || negb (PyStr.truthy (PyStr.strip text))).
  - constructor.
  - apply emit_last_large_enough, chunk_loop_large_enough.
Qed.

(** C4 as stated fails: with the default sizes the text [hello] leaves the
    buffer [hello] after the loop, one token against a minimum of 100, and
    nothing is returned. *)
Lemma short_last_chunk_is_dropped :
  let self := create_chunking_service 500 50 None in
  current_chunk_text (chunk_loop self "document" (_split_into_paragraphs "hello"))
  = "hello"
  /\ count_tokens self "hello" = 1
  /\ chunk_text self "hello" "document" = [].
Proof. repeat split; reflexivity. Qed.

(** C4, amended.  For a text that is not blank, the buffer left by the loop
    becomes the last chunk exactly when it is not empty and holds at least
    [min_chunk_size] tokens; otherwise the result is the chunks closed in the
    loop and the buffer is dropped. *)
Theorem last_chunk_needs_min_size self text source :
  PyStr.truthy (PyStr.strip text) = true ->
  let st := chunk_loop self source (_split_into_paragraphs text) in
  let kept := current_chunk_text st <> ""
              /\ min_chunk_size self <= count_tokens self (current_chunk_text st) in
  (kept -> chunk_text self text source = chunks st ++ [last_chunk self source st])
  /\ (~ kept -> chunk_text self text source = chunks st).
Proof.
  intros Hne st kept. unfold chunk_text.
  assert (PyStr.truthy text = true) as Ht.
  { destruct text; [discriminate|reflexivity]. }
  rewrite Ht, Hne. simpl orb. cbv iota.
  fold st. unfold emit_last, kept.
  destruct (current_chunk_text st) as [|c s] eqn:Hcur; simpl.
  - split; [intros [H _]; congruence | reflexivity].
  - destruct (min_chunk_size self <=? count_tokens self (String c s)) eqn:Hmin.
    + split; [reflexivity|]. intros H. exfalso. apply H. split; [discriminate|lia].
    + split; [|reflexivity]. intros [_ H]. lia.
Qed.

Lemma last_chunk_needs_min_size_witness :
  let self := create_chunking_service 500 50 None in
  let st := chunk_loop self "document" (_split_into_paragraphs "hello") in
  let kept := current_chunk_text st <> ""
              /\ min_chunk_size self <= count_tokens self (current_chunk_text st) in
  (kept -> chunk_text self "hello" "document"
           = chunks st ++ [last_chunk self "document" st])
  /\ (~ kept -> chunk_text self "hello" "document" = chunks st).
Proof.
  apply (last_chunk_needs_min_size (create_chunking_service 500 50 None)
           "hello" "document").
  reflexivity.
Defined.

(** C5 as stated fails: sizes 1 <= 2 <= 3 with no overlap; the first
    paragraph alone has four tokens, is closed when the second one arrives
    and is not the last chunk. *)
Lemma long_paragraph_exceeds_max_size :
  let self := ChunkingService_init 2 1 3 0 None in
  (min_chunk_size self <= target_chunk_size self <= max_chunk_size self)
  /\ chunk_text self two_paragraphs "document"
     = [mkChunk "aaaaaaaaaaaaaaaa" 0 18 "document" 0 4;
        mkChunk "bbbb" 18 24 "document" 1 1]
  /\ ~ Forall (fun c => min_chunk_size self <= token_count c <= max_chunk_size self)
              (removelast (chunk_text self two_paragraphs "document")).
Proof.
  intros self.
  assert (chunk_text self two_paragraphs "document"
          = [mkChunk "aaaaaaaaaaaaaaaa" 0 18 "document" 0 4;
             mkChunk "bbbb" 18 24 "document" 1 1]) as Heq by reflexivity.
  split; [simpl; lia|]. split; [exact Heq|].
  rewrite Heq. intros H. apply Forall_inv in H. simpl in H. lia.
Qed.

(** C5, amended.  Every chunk returned, the last one included, has a token
    count of at least [min_chunk_size]; the sizes need not be ordered for
    that.  No upper bound is claimed. *)
Theorem chunks_reach_min_size self text source :
  Forall (fun c => min_chunk_size self <= token_count c)
         (chunk_text self text source).
Proof. exact (chunk_text_large_enough self text source). Qed.

(** C9 as stated fails: a minimum of 10 above a maximum of 5 is accepted and
    a chunk of ten tokens is produced. *)
Lemma malformed_sizes_are_accepted :
  let self := ChunkingService_init 5 10 5 0 None in
  max_chunk_size self < min_chunk_size self
  /\ chunk_text self forty "document"
     = [mkChunk forty 0 42 "document" 0 10].
Proof. split; [simpl; lia | reflexivity]. Qed.

(** C9, amended.  The constructor keeps the four sizes as they are given and
    [chunk_text] works with them: when [min_chunk_size] is above
    [max_chunk_size], every chunk it returns has more than [max_chunk_size]
    tokens. *)
Theorem malformed_sizes_are_used_as_given target_size min_size max_size overlap
        tiktoken text source :
  max_size < min_size ->
  let self := ChunkingService_init target_size min_size max_size overlap tiktoken in
  (target_chunk_size self, min_chunk_size self, max_chunk_size self,
   overlap_tokens self) = (target_size, min_size, max_size, overlap)
  /\ Forall (fun c => max_size < token_count c) (chunk_text self text source).
Proof.
  intros Hlt self. split; [reflexivity|].
  eapply Forall_impl; [apply (chunk_text_large_enough self)|].
  unfold large_enough. simpl. intros c Hc. lia.
Qed.

Lemma malformed_sizes_are_used_as_given_witness :
  let self := ChunkingService_init 5 10 5 0 None in
  (target_chunk_size self, min_chunk_size self, max_chunk_size self,
   overlap_tokens self) = (5, 10, 5, 0)
  /\ Forall (fun c => 5 < token_count c) (chunk_text self forty "document").
Proof.
  apply (malformed_sizes_are_used_as_given 5 10 5 0 None forty "document").
  lia.
Defined.

End ChunkingFacts.

(** ** The embedder *)

Module EmbeddingFacts.
Import Embedding.

Section WithModel.

Context {V : Type}.
Variable encode : string -> V.
Variable md5 : string -> string.

Lemma fresh_misses name text :
  _get_cached_embedding md5 (fresh (V := V) name) text = (None, fresh name).
Proof.
  unfold _get_cached_embedding, fresh. simpl.
  rewrite !lookup_empty. reflexivity.
Qed.

Lemma insert_by_length {A} (leb : A -> A -> bool) x l :
  length (PyList.insert_by leb x l) = S (length l).
Proof.
  induction l as [|y l IH]; simpl; [reflexivity|].
  destruct (leb x y); simpl; congruence.
Qed.

Lemma stable_sort_length {A} (leb : A -> A -> bool) l :
  length (PyList.stable_sort leb l) = length l.
Proof.
  induction l as [|x l IH]; simpl; [reflexivity|].
  rewrite insert_by_length. congruence.
Qed.

Lemma scan_cache_counts (self : @EmbeddingService V) i texts (b : @batch V) :
  let b' := (scan_cache md5 self i texts b).1 in
  (length (embeddings b') + length (texts_to_embed b')
   = length (embeddings b) + length (texts_to_embed b) + length texts)%nat.
Proof.
  revert self i b. induction texts as [|text rest IH]; intros self i b; simpl.
  - lia.
  - destruct (_get_cached_embedding md5 self text) as [[cached|] self'].
    + specialize (IH self' (S i)
                     (mkBatch (embeddings b ++ [(i, cached)])
                              (texts_to_embed b) (indices_to_embed b))).
      simpl in IH. rewrite length_app in IH. simpl in IH. lia.
    + specialize (IH self' (S i)
                     (mkBatch (embeddings b) (texts_to_embed b ++ [text])
                              (indices_to_embed b ++ [i]))).
      simpl in IH. rewrite length_app in IH. simpl in IH. lia.
Qed.

Lemma store_new_length (self : @EmbeddingService V) (b : @batch V) pairs acc :
  length (store_new md5 self b pairs acc).1 = (length acc + length pairs)%nat.
Proof.
  revert self acc. induction pairs as [|[text e] rest IH]; intros self acc; simpl.
  - lia.
  - rewrite IH, length_app. simpl. lia.
Qed.

(** The part of the order-preservation property that does hold: one output
    row per input text. *)
Lemma embed_texts_length (self : @EmbeddingService V) texts :
  length (embed_texts encode md5 self texts).1 = length texts.
Proof.
  unfold embed_texts. destruct texts as [|t0 texts0]; [reflexivity|].
  set (texts := t0 :: texts0).
  pose proof (scan_cache_counts self 0 texts (mkBatch [] [] [])) as Hc.
  destruct (scan_cache md5 self 0 texts (mkBatch [] [] [])) as [b self1].
  simpl in Hc.
  destruct (texts_to_embed b) as [|u us] eqn:Hu.
  - simpl. rewrite length_map, stable_sort_length. simpl in Hc. lia.
  - pose proof (store_new_length self1 b
                  (zip (u :: us) (map encode (u :: us))) (embeddings b)) as Hs.
    destruct (store_new md5 self1 b _ (embeddings b)) as [all self2].
    simpl fst in *. rewrite length_map, stable_sort_length, Hs.
    rewrite length_zip_with, length_map. simpl in *. lia.
Qed.

(** C7, on the code.  Whatever the model: with empty caches, the batch
    [a; b; a] of two different texts comes back as the embeddings of
    [a; a; b].  Both copies of [a] are filed under the index of the first
    one ([texts_to_embed.index(text)]), the sort moves them together and the
    row for [b] ends in third place. *)
Theorem embed_texts_duplicate_misplaced name (a b : string) :
  a <> b ->
  (embed_texts encode md5 (fresh name) [a; b; a]).1 = [encode a; encode a; encode b].
Proof.
  intros Hab. unfold embed_texts. simpl scan_cache.
  rewrite !fresh_misses. simpl.
  unfold original_index. simpl.
  repeat (case_decide; try congruence; simpl).
  reflexivity.
Qed.

End WithModel.

Lemma embed_texts_duplicate_misplaced_witness :
  (embed_texts code_points (fun s => s) (fresh "all-MiniLM-L6-v2")
               ["a"; "b"; "a"]).1
  = [code_points "a"; code_points "a"; code_points "b"].
Proof.
  apply (embed_texts_duplicate_misplaced code_points (fun s => s)
           "all-MiniLM-L6-v2" "a" "b").
  discriminate.
Defined.

(** The same call on the stand-in model, evaluated: the second row is not
    the embedding of the second text. *)
Example embed_texts_duplicate_rows :
  (embed_texts code_points (fun s => s) (fresh "all-MiniLM-L6-v2")
               ["a"; "b"; "a"]).1
  = [[97]; [97]; [98]].
Proof. vm_compute. reflexivity. Qed.

End EmbeddingFacts.

(** ** The vector store *)

Module VectorStoreFacts.
Import VectorStore.
Open Scope R_scope.

(** *** Norms *)

Lemma dot_self_nonneg v : 0 <= dot v v.
Proof.
  unfold dot. induction v as [|x v IH]; simpl; [lra|].
  pose proof (Rle_0_sqr x) as Hx. unfold Rsqr in Hx. lra.
Qed.

Lemma norm_nonneg v : 0 <= norm v.
Proof. apply sqrt_pos. Qed.

Lemma norm_positive v : norm v <> 0 -> norm v > 0.
Proof. pose proof (norm_nonneg v). lra. Qed.

Lemma norm_square v : norm v * norm v = dot v v.
Proof. apply sqrt_sqrt, dot_self_nonneg. Qed.

Lemma dot_scaled v n :
  n <> 0 ->
  dot (map (fun x => x / n) v) (map (fun x => x / n) v) = dot v v / (n * n).
Proof.
  intros Hn. unfold dot. induction v as [|x v IH]; simpl.
  - field. assumption.
  - rewrite IH. field. assumption.
Qed.

(** A row of non-zero norm is stored with norm one. *)
Lemma normalize_row_unit row : norm row <> 0 -> norm (normalize_row row) = 1.
Proof.
  intros Hn. unfold normalize_row.
  destruct (Req_dec_T (norm row) 0) as [H0|_]; [contradiction|].
  unfold norm at 1. rewrite dot_scaled by assumption.
  rewrite norm_square.
  replace (dot row row / dot row row) with 1; [apply sqrt_1|].
  field. rewrite <- norm_square. nra.
Qed.

(** A row of norm zero is divided by one and keeps norm zero. *)
Lemma normalize_row_zero row : norm row = 0 -> norm (normalize_row row) = 0.
Proof.
  intros H0. unfold normalize_row.
  destruct (Req_dec_T (norm row) 0) as [_|Hn]; [|contradiction].
  unfold norm at 1. rewrite dot_scaled by lra.
  replace (dot row row / (1 * 1)) with (dot row row) by (field; lra).
  exact H0.
Qed.

Lemma norm_zeros : norm [0; 0] = 0.
Proof.
  unfold norm, dot. simpl.
  replace (0 * 0 + (0 * 0 + 0)) with 0 by lra. apply sqrt_0.
Qed.

(** *** [add] *)

Lemma add_embeddings self texts embeddings metadata :
  _embeddings (add self texts embeddings metadata)
  = _embeddings self ++ match texts with
                        | [] => []
                        | _ => map normalize_row embeddings
                        end.
Proof. destruct texts; simpl; [rewrite app_nil_r|]; reflexivity. Qed.

Lemma add_all_embeddings self calls :
  _embeddings (add_all self calls)
  = _embeddings self ++ map normalize_row (submitted_rows calls).
Proof.
  revert self. induction calls as [|c calls IH]; intros self.
  - simpl. rewrite app_nil_r. reflexivity.
  - change (add_all self (c :: calls))
      with (add_all (add self (call_texts c) (call_embeddings c) (call_metadata c))
                    calls).
    rewrite IH, add_embeddings.
    unfold submitted_rows. simpl. rewrite map_app, <- app_assoc.
    destruct (call_texts c); reflexivity.
Qed.

(** C8 as stated fails: a row of zeros is stored as it is, with norm zero. *)
Lemma zero_row_is_not_unit :
  let self := add (VectorStore_init 2) ["empty"] [[0; 0]] None in
  exists v, In v (_embeddings self) /\ norm v <> 1.
Proof.
  exists (normalize_row [0; 0]). split.
  - simpl. left. reflexivity.
  - rewrite (normalize_row_zero _ norm_zeros). lra.
Qed.

(** C8, amended.  After any sequence of [add] calls on a new store, the
    vectors held are the normalised rows of the calls, in order; a row whose
    norm is not zero is held with norm one, and a row of norm zero is held
    with norm zero. *)
Theorem stored_rows_unit_or_zero dim calls :
  Forall2 (fun row v =>
             v = normalize_row row
             /\ (norm row <> 0 -> norm v = 1)
             /\ (norm row = 0 -> norm v = 0))
          (submitted_rows calls)
          (_embeddings (add_all (VectorStore_init dim) calls)).
Proof.
  rewrite add_all_embeddings. simpl.
  induction (submitted_rows calls) as [|row rows IH]; simpl; constructor.
  - split; [reflexivity|]. split.
    + apply normalize_row_unit.
    + apply normalize_row_zero.
  - exact IH.
Qed.

(** *** [search] with a query of norm zero *)

(** C10.  Whatever the store holds, a query whose norm is zero gets the
    empty list: the function returns before any division or dot product. *)
Theorem search_zero_query self query top_k min_score :
  norm query = 0 -> search self query top_k min_score = Ok [].
Proof.
  intros H0. unfold search.
  destruct (_texts self); [reflexivity|].
  destruct (Rgt_dec (norm query) 0) as [Hgt|_]; [lra|reflexivity].
Qed.

Lemma search_zero_query_witness :
  search (add (VectorStore_init 2) ["one"] [[3; 4]] None) [0; 0] 5 0 = Ok [].
Proof.
  apply (search_zero_query (add (VectorStore_init 2) ["one"] [[3; 4]] None)
           [0; 0] 5 0).
  exact norm_zeros.
Defined.

(** *** [search] with a query of non-zero norm *)

Lemma normalize_row_length row : length (normalize_row row) = length row.
Proof. unfold normalize_row. apply length_map. Qed.

Lemma new_store_ok d dim : store_ok d (VectorStore_init dim).
Proof. split; [reflexivity|constructor]. Qed.

Lemma add_store_ok d self texts embeddings metadata :
  store_ok d self ->
  length embeddings = length texts ->
  Forall (fun row => length row = d) embeddings ->
  store_ok d (add self texts embeddings metadata).
Proof.
  intros [Hlen Hdim] Hl Hd. destruct texts as [|t texts]; [split; assumption|].
  split; simpl.
  - rewrite !length_app, length_map, Hlen, Hl. reflexivity.
  - apply Forall_app. split; [assumption|].
    apply Forall_fmap. eapply Forall_impl; [exact Hd|].
    intros row Hrow. simpl. rewrite normalize_row_length. exact Hrow.
Qed.

Lemma insert_by_Forall {A} (P : A -> Prop) leb x l :
  P x -> Forall P l -> Forall P (PyList.insert_by leb x l).
Proof.
  intros Hx Hl. induction Hl as [|y l Hy Hl IH]; simpl.
  - repeat constructor. assumption.
  - destruct (leb x y); repeat constructor; assumption.
Qed.

Lemma stable_sort_Forall {A} (P : A -> Prop) leb l :
  Forall P l -> Forall P (PyList.stable_sort leb l).
Proof.
  induction 1 as [|x l Hx Hl IH]; simpl; [constructor|].
  apply insert_by_Forall; assumption.
Qed.

Lemma insert_by_ascending x l :
  StronglySorted ascending l ->
  StronglySorted ascending (PyList.insert_by score_leb x l).
Proof.
  induction l as [|y l IH]; intros Hs; simpl.
  - repeat constructor.
  - apply StronglySorted_cons in Hs as [Hy Hs].
    unfold score_leb at 1, Rleb. destruct (Rle_dec x.2 y.2) as [Hle|Hgt].
    + apply StronglySorted_cons. split.
      * constructor; [exact Hle|].
        eapply Forall_impl; [exact Hy|].
        unfold ascending. intros z Hz. lra.
      * apply StronglySorted_cons. split; assumption.
    + apply StronglySorted_cons. split.
      * apply insert_by_Forall; [unfold ascending; lra | assumption].
      * apply IH, Hs.
Qed.

Lemma argsort_ascending scores : StronglySorted ascending (argsort scores).
Proof.
  unfold argsort.
  induction (enumerate scores) as [|x l IH]; simpl.
  - constructor.
  - apply insert_by_ascending, IH.
Qed.

Lemma zip_seq_bound {A} (l : list A) k :
  Forall (fun h : nat * A => (h.1 < k + length l)%nat) (zip (seq k (length l)) l).
Proof.
  revert k. induction l as [|x l IH]; intros k; simpl; constructor.
  - simpl. lia.
  - eapply Forall_impl; [apply (IH (S k))|]. intros h Hh. simpl in Hh. lia.
Qed.

Lemma argsort_indices scores :
  Forall (fun h : nat * R => (h.1 < length scores)%nat) (argsort scores).
Proof. apply stable_sort_Forall, (zip_seq_bound scores 0). Qed.

Lemma StronglySorted_rev {A} (R : relation A) l :
  StronglySorted R l -> StronglySorted (flip R) (rev l).
Proof.
  induction l as [|x l IH]; intros Hs; simpl; [constructor|].
  apply StronglySorted_cons in Hs as [Hx Hs].
  apply StronglySorted_app. repeat split.
  - intros a b Ha Hb. apply list_elem_of_singleton in Hb as ->.
    apply list_elem_of_In, in_rev, list_elem_of_In in Ha.
    rewrite Forall_forall in Hx. apply Hx, Ha.
  - apply IH, Hs.
  - repeat constructor.
Qed.

Lemma StronglySorted_take {A} (R : relation A) n l :
  StronglySorted R l -> StronglySorted R (take n l).
Proof.
  intros Hs. rewrite <- (take_drop n l) in Hs.
  eapply StronglySorted_app_1_l, Hs.
Qed.

Lemma StronglySorted_filter {A} (R : relation A) (P : A -> Prop)
      `{!forall x, Decision (P x)} l :
  StronglySorted R l -> StronglySorted R (filter P l).
Proof.
  induction 1 as [|x l Hs IH Hx].
  - constructor.
  - rewrite filter_cons. destruct (decide (P x)); [|assumption].
    constructor; [assumption|].
    rewrite Forall_forall in *. intros y Hy.
    apply list_elem_of_filter in Hy as [_ Hy]. auto.
Qed.

Lemma StronglySorted_ranks {A} (R : relation A) l i j a b :
  StronglySorted R l ->
  l !! i = Some a -> l !! j = Some b -> (i < j)%nat -> R a b.
Proof.
  intros Hs. revert i j. induction Hs as [|x l Hs IH Hx]; intros i j Hi Hj Hlt.
  - discriminate.
  - destruct j as [|j]; [lia|]. simpl in Hj.
    destruct i as [|i]; simpl in Hi.
    + injection Hi as ->. eapply Forall_lookup_1; eassumption.
    + apply (IH i j); [assumption..|lia].
Qed.

(** The pairs of [top_indices] are in descending order of score, at most
    [top_k] of them, and their indices are positions of [scores]. *)
Lemma top_indices_descending scores top_k :
  StronglySorted descending (top_indices scores top_k).
Proof.
  unfold top_indices, PyList.slice_to.
  pose proof (StronglySorted_rev _ _ (argsort_ascending scores)) as Hs.
  destruct (0 <=? top_k)%Z; apply StronglySorted_take, Hs.
Qed.

Lemma top_indices_length scores top_k :
  (0 <= top_k)%Z -> (Z.of_nat (length (top_indices scores top_k)) <= top_k)%Z.
Proof.
  intros Hk. unfold top_indices, PyList.slice_to.
  destruct (Z.leb_spec 0 top_k) as [_|Hneg]; [|lia].
  rewrite length_take. lia.
Qed.

Lemma top_indices_in_range scores top_k :
  Forall (fun h : nat * R => (h.1 < length scores)%nat) (top_indices scores top_k).
Proof.
  unfold top_indices, PyList.slice_to.
  assert (Forall (fun h : nat * R => (h.1 < length scores)%nat)
                 (rev (argsort scores))) as Hr.
  { apply List.Forall_rev, argsort_indices. }
  destruct (0 <=? top_k)%Z; apply Forall_take, Hr.
Qed.

(** With every index inside [_texts], the loop returns one result per
    pair that passes the threshold, with that pair's score and text. *)
Lemma collect_kept self min_score hits :
  Forall (fun h : nat * R => (h.1 < length (_texts self))%nat) hits ->
  exists results,
    collect self min_score hits = Ok results
    /\ Forall2 (fun h r => score r = h.2 /\ _texts self !! h.1 = Some (text r))
               (kept_hits min_score hits) results.
Proof.
  induction 1 as [|[idx sc] hits Hidx Hhits [results [Hc Hr]]]; simpl.
  - exists []. split; [reflexivity|constructor].
  - unfold kept_hits. rewrite filter_cons. simpl.
    destruct (Rltb sc min_score) eqn:Hlt.
    + rewrite decide_False by discriminate. exists results. split; assumption.
    + rewrite decide_True by reflexivity.
      simpl in Hidx. apply lookup_lt_is_Some_2 in Hidx as [t Ht].
      rewrite Ht, Hc.
      exists (make_result self idx t sc :: results). split; [reflexivity|].
      constructor; [|exact Hr]. split; [reflexivity|exact Ht].
Qed.

Lemma kept_hits_threshold min_score hits :
  Forall (fun h : nat * R => min_score <= h.2) (kept_hits min_score hits).
Proof.
  unfold kept_hits. apply Forall_forall. intros h Hh.
  apply list_elem_of_filter in Hh as [Hlt _].
  unfold Rltb in Hlt. destruct (Rlt_dec h.2 min_score); [discriminate|lra].
Qed.

Lemma row_scores_ok rows query :
  rows <> [] ->
  Forall (fun row => length row = length query) rows ->
  row_scores rows query = Ok (map (fun row => dot row query) rows).
Proof.
  intros Hne Hdim. unfold row_scores.
  destruct rows as [|row rows]; [contradiction|].
  replace (forallb _ (row :: rows)) with true; [reflexivity|].
  symmetry. apply forallb_forall. intros r Hr.
  apply Nat.eqb_eq. rewrite Forall_forall in Hdim.
  apply Hdim, list_elem_of_In, Hr.
Qed.

Lemma built_from_scores self (P : R -> Prop) hits results :
  Forall2 (built_from self) hits results ->
  Forall (fun h => P h.2) hits ->
  Forall (fun r => P (score r)) results.
Proof.
  induction 1 as [|h r hits results [Hsc _] _ IH]; intros Hp.
  - constructor.
  - apply Forall_cons in Hp as [Hh Hp].
    constructor; [rewrite Hsc; exact Hh | apply IH, Hp].
Qed.

Lemma built_from_descending self hits results :
  Forall2 (built_from self) hits results ->
  StronglySorted descending hits ->
  StronglySorted (fun r1 r2 => score r2 <= score r1) results.
Proof.
  induction 1 as [|h r hits results [Hsc Ht] Hrest IH]; intros Hs.
  - constructor.
  - apply StronglySorted_cons in Hs as [Hh Hs].
    constructor; [apply IH, Hs|].
    rewrite Hsc.
    apply (built_from_scores self (fun s => s <= h.2) hits results Hrest).
    exact Hh.
Qed.

Lemma norm_one : norm [1] = 1.
Proof.
  unfold norm, dot. simpl. replace (1 * 1 + 0) with 1 by lra. apply sqrt_1.
Qed.

(** Against the query [[1]] both rows of [twins] score 1. *)
Lemma twins_search top_k :
  search twins [1] top_k 0 = collect twins 0 (top_indices [1; 1] top_k).
Proof.
  set (q := map (fun x => x / norm [1]) [1]).
  set (s := dot (normalize_row [1]) q).
  assert (s = 1) as Hs.
  { unfold s, q, normalize_row. rewrite norm_one.
    destruct (Req_dec_T 1 0) as [H|_]; [lra|].
    unfold dot. simpl. field. }
  unfold search. simpl _texts.
  destruct (Rgt_dec (norm [1]) 0) as [_|Hle]; [|rewrite norm_one in Hle; lra].
  fold q. simpl _embeddings. unfold row_scores. simpl forallb. cbv iota.
  simpl map. fold s. rewrite Hs. reflexivity.
Qed.

Lemma argsort_twins : argsort [1; 1] = [(0%nat, 1); (1%nat, 1)].
Proof.
  unfold argsort, enumerate, PyList.stable_sort. simpl.
  unfold score_leb, Rleb. simpl.
  destruct (Rle_dec 1 1) as [_|Hne]; [reflexivity|lra].
Qed.

Lemma twins_pass : Rltb 1 0 = false.
Proof. unfold Rltb. destruct (Rlt_dec 1 0); [lra|reflexivity]. Qed.

(** C1 as stated fails on ties: both texts of [twins] score the same, and
    [search] returns the one inserted second in first place. *)
Lemma equal_scores_latest_first :
  search twins [1] 2 0
  = Ok [mkSearchResult "second" (VStr "unknown") (VInt 1) 1 ∅;
        mkSearchResult "first" (VStr "unknown") (VInt 0) 1 ∅].
Proof.
  rewrite twins_search. unfold top_indices. rewrite argsort_twins.
  simpl. rewrite twins_pass. reflexivity.
Qed.

(** Nor does a negative [top_k] bound the number of results: the slice
    [[:top_k]] then drops entries from the end only. *)
Example negative_top_k_keeps_a_result :
  search twins [1] (-1) 0
  = Ok [mkSearchResult "second" (VStr "unknown") (VInt 1) 1 ∅].
Proof.
  rewrite twins_search. unfold top_indices. rewrite argsort_twins.
  simpl. rewrite twins_pass. reflexivity.
Qed.

(** C1, amended.  On a store with one row per text and rows of the query's
    dimension, for a query of non-zero norm and [top_k >= 0], [search]
    returns at most [top_k] results, each with a score of at least
    [min_score], in descending order of score.  Nothing is claimed for
    results of equal score. *)
Theorem search_ranked_and_filtered self query top_k min_score :
  norm query <> 0 ->
  (0 <= top_k)%Z ->
  store_ok (length query) self ->
  exists results,
    search self query top_k min_score = Ok results
    /\ (Z.of_nat (length results) <= top_k)%Z
    /\ Forall (fun r => min_score <= score r) results
    /\ (forall i j r1 r2,
          results !! i = Some r1 -> results !! j = Some r2 -> (i < j)%nat ->
          score r2 <= score r1).
Proof.
  intros Hn Hk [Hlen Hdim]. unfold search.
  destruct (_texts self) as [|t ts] eqn:Ht.
  - exists []. repeat split; [assumption|constructor|].
    intros i j r1 r2 Hi. discriminate.
  - destruct (Rgt_dec (norm query) 0) as [_|Hle];
      [|pose proof (norm_positive query Hn); lra].
    set (q := map (fun x => x / norm query) query).
    rewrite row_scores_ok.
    + set (scores := map (fun row => dot row q) (_embeddings self)).
      destruct (collect_kept self min_score (top_indices scores top_k))
        as [results [Hc Hb]].
      { eapply Forall_impl; [apply top_indices_in_range|].
        intros h Hh. simpl in Hh. unfold scores in Hh.
        rewrite length_map, Hlen in Hh. rewrite Ht. exact Hh. }
      exists results. split; [exact Hc|]. split; [|split].
      * pose proof (Forall2_length _ _ _ Hb) as Hl.
        pose proof (length_filter (fun h : nat * R => Rltb h.2 min_score = false)
                      (top_indices scores top_k)) as Hf.
        pose proof (top_indices_length scores top_k Hk).
        unfold kept_hits in Hl. lia.
      * apply (built_from_scores self (fun s => min_score <= s) _ _ Hb).
        apply kept_hits_threshold.
      * intros i j r1 r2 Hi Hj Hlt.
        eapply (StronglySorted_ranks (fun r1 r2 => score r2 <= score r1));
          [|exact Hi|exact Hj|exact Hlt].
        apply (built_from_descending self _ _ Hb).
        apply StronglySorted_filter, top_indices_descending.
    + intros He. rewrite He in Hlen. discriminate.
    + unfold q. rewrite length_map. exact Hdim.
Qed.

Lemma search_ranked_and_filtered_witness :
  exists results,
    search twins [1] 2 0 = Ok results
    /\ (Z.of_nat (length results) <= 2)%Z
    /\ Forall (fun r => 0 <= score r) results
    /\ (forall i j r1 r2,
          results !! i = Some r1 -> results !! j = Some r2 -> (i < j)%nat ->
          score r2 <= score r1).
Proof.
  apply (search_ranked_and_filtered twins [1] 2 0).
  - rewrite norm_one. lra.
  - lia.
  - apply add_store_ok; [apply new_store_ok | reflexivity|].
    repeat constructor.
Defined.

End VectorStoreFacts.

(** ** More on the token budget and the message window *)

Module WindowFacts.
Import AIService.

Lemma sum_tokens_app l1 l2 : sum_tokens (l1 ++ l2) = sum_tokens l1 + sum_tokens l2.
Proof.
  unfold sum_tokens. induction l1 as [|m l1 IH]; simpl; [reflexivity|].
  rewrite IH. lia.
Qed.

Lemma sum_tokens_insert_at i m l :
  sum_tokens (PyList.insert_at i m l) = estimate_tokens (content m) + sum_tokens l.
Proof.
  unfold PyList.insert_at.
  rewrite <- (take_drop i l) at 3.
  rewrite !sum_tokens_app.
  change (sum_tokens (m :: drop i l))
    with (estimate_tokens (content m) + sum_tokens (drop i l)).
  lia.
Qed.

(** The loop keeps [current_tokens] equal to the tokens of [result] and
    never lets it pass the budget. *)
Lemma trim_loop_fits budget rev_messages result tokens :
  sum_tokens result = tokens ->
  tokens <= budget ->
  sum_tokens (trim_loop budget rev_messages result tokens) <= budget.
Proof.
  revert result tokens.
  induction rev_messages as [|msg rest IH]; intros result tokens Hsum Hfit; simpl.
  - lia.
  - destruct (Z.leb_spec (tokens + estimate_tokens (content msg)) budget) as [Hle|Hgt].
    + apply IH; [|exact Hle]. rewrite sum_tokens_insert_at. lia.
    + lia.
Qed.

(** X1.  The trimmed window fits a non-negative budget, unless the system prompt
    alone is larger than the budget. *)
Theorem trim_fits_budget messages budget :
  0 <= budget ->
  (forall first, head messages = Some first -> role first = "system" ->
                 estimate_tokens (content first) <= budget) ->
  sum_tokens (trim_to_token_budget messages budget) <= budget.
Proof.
  intros Hb Hsys. unfold trim_to_token_budget.
  destruct messages as [|first others]; [simpl; lia|].
  destruct (Z.leb_spec (sum_tokens (first :: others)) budget) as [Hle|Hgt];
    [exact Hle|].
  destruct (String.eqb_spec (role first) "system") as [Hrole|Hrole].
  - apply trim_loop_fits.
    + unfold sum_tokens. simpl. lia.
    + apply (Hsys first); [reflexivity|exact Hrole].
  - apply trim_loop_fits; [reflexivity|exact Hb].
Qed.

Lemma trim_fits_budget_witness :
  sum_tokens (trim_to_token_budget
                [system "ssss"; user "aaaa"; assistant "bbbb"; user "cccc"] 3) <= 3.
Proof.
  apply (trim_fits_budget
           [system "ssss"; user "aaaa"; assistant "bbbb"; user "cccc"] 3).
  - lia.
  - intros first Hfirst _. injection Hfirst as <-. vm_compute. discriminate.
Defined.

(** X2.  With a system prompt in front, the window comes back as the system
    prompt followed by a suffix of the other messages, in their order: the
    messages dropped are the oldest ones. *)
Theorem trim_behind_system_prompt first others budget :
  role first = "system" ->
  exists dropped kept,
    others = dropped ++ kept
    /\ trim_to_token_budget (first :: others) budget = first :: kept.
Proof. exact (AIServiceFacts.trim_with_system_prompt first others budget). Qed.

Lemma trim_behind_system_prompt_witness :
  exists dropped kept,
    [user "aaaa"; assistant "bbbb"; user "cccc"] = dropped ++ kept
    /\ trim_to_token_budget
         (system "ssss" :: [user "aaaa"; assistant "bbbb"; user "cccc"]) 3
       = system "ssss" :: kept.
Proof.
  apply (trim_behind_system_prompt (system "ssss")
           [user "aaaa"; assistant "bbbb"; user "cccc"] 3).
  reflexivity.
Defined.




(** [l[-n:]] has at most [n] elements. *)
Lemma last_n_length {A} n (l : list A) : (length (PyList.last_n n l) <= n)%nat.
Proof. unfold PyList.last_n. rewrite length_drop. lia. Qed.

(** X4.  [_build_messages]: the window has at most twelve messages and ends with
    the user's prompt. *)
Theorem build_messages_shape prompt history system_prompt :
  (length (_build_messages prompt history system_prompt) <= 12)%nat
  /\ last (_build_messages prompt history system_prompt) = Some (user prompt).
Proof.
  unfold _build_messages. split.
  - rewrite !length_app, length_map. simpl.
    pose proof (last_n_length 10 history).
    destruct (PyStr.truthy system_prompt); simpl; lia.
  - rewrite app_assoc. apply last_snoc.
Qed.

Lemma build_messages_head prompt history system_prompt :
  system_prompt <> "" ->
  exists others,
    _build_messages prompt history system_prompt = system system_prompt :: others.
Proof.
  intros Hne. unfold _build_messages.
  destruct system_prompt; [contradiction|]. simpl. eauto.
Qed.

(** X5.  The system prompt survives the trimming of the window, whatever the
    budget. *)
Theorem request_keeps_system_prompt prompt history system_prompt :
  system_prompt <> "" ->
  head (request_messages prompt history system_prompt)
  = Some (system system_prompt).
Proof.
  intros Hne. unfold request_messages.
  destruct (build_messages_head prompt history system_prompt Hne) as [others ->].
  destruct (AIServiceFacts.trim_with_system_prompt (system system_prompt) others
              MAX_TOKEN_BUDGET eq_refl) as (dropped & kept & _ & ->).
  reflexivity.
Qed.

Lemma request_keeps_system_prompt_witness :
  head (request_messages "hi" [] "Be brief.") = Some (system "Be brief.").
Proof.
  apply (request_keeps_system_prompt "hi" [] "Be brief."). discriminate.
Defined.

End WindowFacts.

(** ** More on error classification and provider selection *)

Module GatewayFacts.
Import AIService AIServiceFacts GatewayNotions.

(** *** Classification ignores letter case *)

Lemma lower_char_idempotent c : PyStr.lower_char (PyStr.lower_char c) = PyStr.lower_char c.
Proof. destruct c as [[] [] [] [] [] [] [] []]; reflexivity. Qed.

Lemma lower_idempotent s : PyStr.lower (PyStr.lower s) = PyStr.lower s.
Proof.
  induction s as [|c s IH]; simpl; [reflexivity|].
  rewrite lower_char_idempotent, IH. reflexivity.
Qed.

(** Lowering a character neither makes nor unmakes a digit. *)
Lemma eqb_lower_digit d c :
  is_digit d = true -> Ascii.eqb d (PyStr.lower_char c) = Ascii.eqb d c.
Proof.
  destruct d as [[] [] [] [] [] [] [] []]; try discriminate; intros _;
    destruct c as [[] [] [] [] [] [] [] []]; reflexivity.
Qed.

Lemma startswith_lower_digits p s :
  Forall (fun d => is_digit d = true) (list_ascii_of_string p) ->
  PyStr.startswith p (PyStr.lower s) = PyStr.startswith p s.
Proof.
  revert s. induction p as [|d p IH]; intros s Hp; [reflexivity|].
  simpl in Hp. apply Forall_cons in Hp as [Hd Hp].
  destruct s as [|c s]; simpl; [reflexivity|].
  rewrite (eqb_lower_digit d c Hd), (IH s Hp). reflexivity.
Qed.

Lemma contains_lower_digits p s :
  Forall (fun d => is_digit d = true) (list_ascii_of_string p) ->
  PyStr.contains p (PyStr.lower s) = PyStr.contains p s.
Proof.
  intros Hp. induction s as [|c s IH].
  - reflexivity.
  - change (PyStr.lower (String c s)) with (String (PyStr.lower_char c) (PyStr.lower s)).
    change (PyStr.contains p (String (PyStr.lower_char c) (PyStr.lower s)))
      with (PyStr.startswith p (String (PyStr.lower_char c) (PyStr.lower s))
            || PyStr.contains p (PyStr.lower s)).
    change (PyStr.contains p (String c s))
      with (PyStr.startswith p (String c s) || PyStr.contains p s).
    rewrite IH.
    change (String (PyStr.lower_char c) (PyStr.lower s)) with (PyStr.lower (String c s)).
    rewrite (startswith_lower_digits p _ Hp). reflexivity.
Qed.

(** X6.  An error message and its lower-case form are classified alike: every
    keyword is looked up in the lowered text, and the two status codes are
    made of digits. *)
Theorem classify_error_ignores_case e :
  classify_error (PyStr.lower e) = classify_error e.
Proof.
  unfold classify_error.
  rewrite lower_idempotent.
  rewrite (contains_lower_digits "429" e), (contains_lower_digits "401" e)
    by (repeat constructor).
  reflexivity.
Qed.

(** *** No provider *)

Lemma dict_get_elem name d p :
  dict_get name d = Some p -> (name, p) ∈ d.
Proof.
  induction d as [|[k q] d IH]; simpl; [discriminate|].
  destruct (String.eqb_spec k name) as [->|_].
  - intros [= ->]. left.
  - intros H. right. auto.
Qed.

Lemma usable_tagged (name : string) (provider : option AIProvider) :
  usable (snd <$> ((fun p : AIProvider => (name, p)) <$> provider)) = usable provider.
Proof. destruct provider; reflexivity. Qed.

(** X7.  When none of the configured providers is available, and also when none
    is configured, the call yields the one message of the gateway and starts
    no provider. *)
Theorem stream_without_provider self prompt history system_prompt enable_fallback :
  Forall (fun np => is_available np.2 = false) (providers self) ->
  stream_trace self prompt history system_prompt enable_fallback
  = [Yield FromGateway MSG_NO_PROVIDER].
Proof.
  intros Hnone.
  assert (get_available_providers self = []) as Hav.
  { unfold get_available_providers.
    replace (filter _ (providers self)) with (@nil (string * AIProvider));
      [reflexivity|].
    symmetry. induction Hnone as [|np l Hnp Hl IH]; [reflexivity|].
    rewrite filter_cons_False; [exact IH|]. rewrite Hnp. discriminate. }
  assert (forall name p, dict_get name (providers self) = Some p ->
                         is_available p = false) as Hget.
  { intros name p Hp. apply dict_get_elem in Hp.
    rewrite Forall_forall in Hnone. apply (Hnone _ Hp). }
  unfold stream_trace, select_provider. rewrite Hav. simpl select_loop.
  destruct (_current_provider self) as [name|]; simpl.
  - destruct (dict_get name (providers self)) as [p|] eqn:Hp; simpl.
    + rewrite (Hget _ _ Hp). destruct enable_fallback; simpl;
        rewrite (Hget _ _ Hp); reflexivity.
    + destruct enable_fallback; reflexivity.
  - destruct enable_fallback; reflexivity.
Qed.

Lemma stream_without_provider_witness :
  stream_trace (mkAIService [("groq", mkAIProvider false (fun _ _ => ([], Completed)))]
                            (Some "groq") "llama-3.3-70b-versatile")
               "hi" [] "" true
  = [Yield FromGateway MSG_NO_PROVIDER].
Proof.
  apply (stream_without_provider
           (mkAIService [("groq", mkAIProvider false (fun _ _ => ([], Completed)))]
                        (Some "groq") "llama-3.3-70b-versatile")
           "hi" [] "" true).
  repeat constructor.
Defined.

(** *** The current provider answers *)

Lemma select_current self enable_fallback name provider :
  _current_provider self = Some name ->
  dict_get name (providers self) = Some provider ->
  is_available provider = true ->
  select_provider self enable_fallback = Some (name, provider).
Proof.
  intros Hc Hp Hav. unfold select_provider. rewrite Hc, Hp. simpl.
  rewrite Hav. reflexivity.
Qed.

(** X8.  When the current provider is available and its stream finishes, the
    caller receives exactly its chunks, no message of the gateway is added
    and no other provider is started, with or without fallback. *)
Theorem stream_current_provider_completes self prompt history system_prompt
        enable_fallback name provider chunks :
  _current_provider self = Some name ->
  dict_get name (providers self) = Some provider ->
  is_available provider = true ->
  provider_stream provider (request_messages prompt history system_prompt)
                  (_current_model self) = (chunks, Completed) ->
  stream self prompt history system_prompt enable_fallback = chunks
  /\ invoked (stream_trace self prompt history system_prompt enable_fallback)
     = [name].
Proof.
  intros Hc Hp Hav Hs. unfold stream, stream_trace.
  rewrite (select_current _ _ _ _ Hc Hp Hav), Hav.
  unfold request_messages in Hs. rewrite Hs.
  split.
  - simpl. apply yielded_yields.
  - simpl. rewrite invoked_yields. reflexivity.
Qed.

Lemma stream_current_provider_completes_witness :
  let self := two_providers (answering ["Hel"; "lo"]) (answering ["ok"]) in
  stream self "hi" [] "" true = ["Hel"; "lo"]
  /\ invoked (stream_trace self "hi" [] "" true) = ["groq"].
Proof.
  intros self.
  apply (stream_current_provider_completes self "hi" [] "" true "groq"
           (answering ["Hel"; "lo"]) ["Hel"; "lo"]); reflexivity.
Defined.

(** *** Every attempt fails *)

Lemma is_candidate_get self name :
  is_candidate self name = true ->
  exists p, dict_get name (providers self) = Some p.
Proof.
  unfold is_candidate, usable.
  destruct (dict_get name (providers self)) as [p|]; [eauto|].
  rewrite andb_false_r. discriminate.
Qed.

Lemma fallback_loop_all_raise self messages names :
  (forall name p, name ∈ names -> is_candidate self name = true ->
                  dict_get name (providers self) = Some p ->
                  exists chunks e,
                    provider_stream p messages (fallback_model name)
                    = (chunks, Raised e)) ->
  (fallback_loop self messages names).2 = false
  /\ invoked (fallback_loop self messages names).1
     = filter (fun name => is_candidate self name = true) names.
Proof.
  induction names as [|name rest IH]; intros Hall; [split; reflexivity|].
  destruct IH as [IH2 IH1].
  { intros n p Hn. apply Hall. right. exact Hn. }
  destruct (is_candidate self name) eqn:Hc.
  - destruct (is_candidate_get _ _ Hc) as [p Hp].
    destruct (Hall name p) as (chunks & e & Hs); [left|assumption..|].
    rewrite (fallback_loop_calls _ _ _ _ p Hc Hp), Hs.
    rewrite filter_cons_True by assumption.
    destruct (fallback_loop self messages rest) as [later returned].
    simpl in *. split; [exact IH2|].
    rewrite invoked_app, invoked_yields, IH1. reflexivity.
  - rewrite (fallback_loop_skips _ _ _ _ Hc).
    rewrite filter_cons_False by (rewrite Hc; discriminate).
    split; assumption.
Qed.

(** X9.  When the current provider raises and every provider tried after it
    raises as well (none is tried when fallback is off), each of the other
    available providers was started once, in the order of the dictionary,
    and the last chunk the caller receives is the message chosen from the
    error of the current provider; the errors of the fallbacks are not
    shown. *)
Theorem stream_all_fail self prompt history system_prompt enable_fallback
        name provider partial e :
  _current_provider self = Some name ->
  dict_get name (providers self) = Some provider ->
  is_available provider = true ->
  provider_stream provider (request_messages prompt history system_prompt)
                  (_current_model self) = (partial, Raised e) ->
  (forall n p, n ∈ tried self enable_fallback ->
               dict_get n (providers self) = Some p ->
               exists chunks e',
                 provider_stream p (request_messages prompt history system_prompt)
                                 (fallback_model n) = (chunks, Raised e')) ->
  invoked (stream_trace self prompt history system_prompt enable_fallback)
  = name :: tried self enable_fallback
  /\ last (stream self prompt history system_prompt enable_fallback)
     = Some (error_message (classify_error e) e).
Proof.
  intros Hc Hp Hav Hs Hall. unfold stream.
  rewrite (stream_trace_primary_raises _ _ _ _ _ _ _ _ _
             (select_current _ _ _ _ Hc Hp Hav) Hav Hs).
  cbv zeta.
  assert (exists events,
             (if enable_fallback
              then fallback_loop self (request_messages prompt history system_prompt)
                                 (get_available_providers self)
              else ([], false)) = (events, false)
             /\ invoked events = tried self enable_fallback) as (events & -> & Hev).
  { unfold tried in *. destruct enable_fallback.
    - destruct (fallback_loop_all_raise self
                  (request_messages prompt history system_prompt)
                  (get_available_providers self)) as [H2 H1].
      + intros n p Hn Hcand Hget. apply (Hall n p); [|exact Hget].
        unfold fallback_candidates. apply list_elem_of_filter. split; assumption.
      + destruct (fallback_loop _ _ _) as [events returned]. simpl in *.
        subst returned. exists events. split; [reflexivity|exact H1].
    - exists []. split; reflexivity. }
  simpl fst. simpl snd. cbv iota. split.
  - rewrite !invoked_app. simpl. rewrite invoked_yields, Hev, app_nil_r.
    reflexivity.
  - rewrite app_assoc, yielded_app. simpl. apply last_snoc.
Qed.

Lemma stream_all_fail_witness :
  let self := two_providers (failing ["par"] "timed out") (failing [] "503") in
  invoked (stream_trace self "hi" [] "" true) = "groq" :: tried self true
  /\ last (stream self "hi" [] "" true)
     = Some (error_message (classify_error "timed out") "timed out").
Proof.
  intros self.
  apply (stream_all_fail self "hi" [] "" true "groq"
           (failing ["par"] "timed out") ["par"] "timed out");
    try reflexivity.
  intros n p Hn Hget. vm_compute in Hn.
  apply list_elem_of_singleton in Hn. subst n.
  vm_compute in Hget. injection Hget as <-.
  exists [], "503". reflexivity.
Defined.

(** *** A substitute for the current provider is started twice *)

Lemma select_loop_first self names init name provider :
  usable (snd <$> init) = false ->
  select_loop self names init = Some (name, provider) ->
  is_available provider = true ->
  exists rest,
    filter (fun n => is_candidate self n = true) names = name :: rest
    /\ dict_get name (providers self) = Some provider.
Proof.
  revert init. induction names as [|x names IH]; intros init Hinit Hsel Hav; simpl in Hsel.
  - subst init. simpl in Hinit. congruence.
  - destruct (differs_from_current self x) eqn:Hd.
    + destruct (usable (snd <$> ((fun p => (x, p)) <$> dict_get x (providers self))))
        eqn:Hu.
      * destruct (dict_get x (providers self)) as [p|] eqn:Hp; [|discriminate].
        simpl in Hsel. injection Hsel as -> ->.
        exists (filter (fun n => is_candidate self n = true) names). split; [|exact Hp].
        apply filter_cons_True. unfold is_candidate. rewrite Hd, Hp. exact Hav.
      * destruct (IH _ Hu Hsel Hav) as (rest & Hrest & Hget).
        exists rest. split; [|exact Hget].
        rewrite filter_cons_False; [exact Hrest|].
        unfold is_candidate. rewrite Hd. rewrite usable_tagged in Hu. rewrite Hu.
        discriminate.
    + destruct (IH _ Hinit Hsel Hav) as (rest & Hrest & Hget).
      exists rest. split; [|exact Hget].
      rewrite filter_cons_False; [exact Hrest|].
      unfold is_candidate. rewrite Hd. discriminate.
Qed.

Lemma fallback_loop_head self messages names name rest :
  filter (fun n => is_candidate self n = true) names = name :: rest ->
  exists events, (fallback_loop self messages names).1 = Invoke name :: events.
Proof.
  induction names as [|x names IH]; intros Hf; [discriminate|].
  destruct (is_candidate self x) eqn:Hc.
  - rewrite filter_cons_True in Hf by assumption. injection Hf as -> _.
    destruct (is_candidate_get _ _ Hc) as [p Hp].
    rewrite (fallback_loop_calls _ _ _ _ p Hc Hp).
    destruct (provider_stream p messages (fallback_model name)) as [chunks out].
    destruct out; [|destruct (fallback_loop self messages names)]; simpl; eauto.
  - rewrite filter_cons_False in Hf by (rewrite Hc; discriminate).
    rewrite (fallback_loop_skips _ _ _ _ Hc). auto.
Qed.

(** X10.  When the current provider is missing or unavailable, the first other
    available provider takes its place for the primary attempt; if that
    attempt raises, the loop of the [except] branch starts the very same
    provider again before any other. *)
Theorem substitute_is_started_twice self prompt history system_prompt
        name provider chunks e :
  usable (get_provider self) = false ->
  select_provider self true = Some (name, provider) ->
  is_available provider = true ->
  provider_stream provider (request_messages prompt history system_prompt)
                  (_current_model self) = (chunks, Raised e) ->
  exists later,
    invoked (stream_trace self prompt history system_prompt true)
    = name :: name :: later.
Proof.
  intros Hcur Hsel Hav Hs.
  rewrite (stream_trace_primary_raises _ _ _ _ _ _ _ _ _ Hsel Hav Hs).
  cbv zeta.
  assert (exists rest, fallback_candidates self = name :: rest) as [rest Hrest].
  { unfold select_provider in Hsel. unfold get_provider in Hcur.
    set (init := match _current_provider self with
                 | Some n => (fun p => (n, p)) <$> dict_get n (providers self)
                 | None => None
                 end) in *.
    assert (usable (snd <$> init) = false) as Hinit.
    { unfold init. destruct (_current_provider self) as [n|]; [|reflexivity].
      rewrite usable_tagged. exact Hcur. }
    rewrite Hinit in Hsel.
    destruct (select_loop_first _ _ _ _ _ Hinit Hsel Hav) as (rest & Hf & _).
    exists rest. exact Hf. }
  destruct (fallback_loop_head self (request_messages prompt history system_prompt)
              _ _ _ Hrest) as [events Hev].
  rewrite !invoked_app, Hev. simpl. rewrite invoked_yields. simpl. eauto.
Qed.

Lemma substitute_is_started_twice_witness :
  let self := mkAIService [("gemini", failing [] "overloaded")] (Some "groq")
                          "llama-3.3-70b-versatile" in
  exists later,
    invoked (stream_trace self "hi" [] "" true) = "gemini" :: "gemini" :: later.
Proof.
  intros self.
  apply (substitute_is_started_twice self "hi" [] "" "gemini"
           (failing [] "overloaded") [] "overloaded"); reflexivity.
Defined.

End GatewayFacts.

(** ** More on the chunker *)

Module ChunkerFacts.
Import Chunking ChunkerNotions.

(** *** Whitespace *)

Lemma lstrip_empty s : PyStr.lstrip s = "" <-> all_space s = true.
Proof.
  unfold all_space. induction s as [|c s IH]; simpl; [tauto|].
  destruct (PyStr.is_space c); simpl; [exact IH|].
  split; discriminate.
Qed.

Lemma rstrip_empty s : PyStr.rstrip s = "" <-> all_space s = true.
Proof.
  unfold all_space. induction s as [|c s IH]; simpl; [tauto|].
  destruct (PyStr.rstrip s) as [|d r].
  - destruct (PyStr.is_space c); simpl.
    + split; [intros _; apply IH; reflexivity | reflexivity].
    + split; discriminate.
  - split; [discriminate|].
    intros H. apply andb_true_iff in H as [_ H]. apply IH in H. discriminate.
Qed.

Lemma all_space_lstrip s : all_space (PyStr.lstrip s) = all_space s.
Proof.
  unfold all_space. induction s as [|c s IH]; simpl; [reflexivity|].
  destruct (PyStr.is_space c) eqn:Hc; simpl; [exact IH|].
  rewrite Hc. reflexivity.
Qed.

Lemma strip_empty s : PyStr.strip s = "" <-> all_space s = true.
Proof. unfold PyStr.strip. rewrite rstrip_empty, all_space_lstrip. tauto. Qed.

Lemma append_cons c a b : String c a +:+ b = String c (a +:+ b).
Proof. reflexivity. Qed.

Lemma append_assoc a b c : (a +:+ b) +:+ c = a +:+ b +:+ c.
Proof.
  induction a as [|x a IH]; [reflexivity|].
  rewrite !append_cons, IH. reflexivity.
Qed.

Lemma all_space_app a b : all_space (a +:+ b) = all_space a && all_space b.
Proof.
  unfold all_space. induction a as [|c a IH]; [reflexivity|].
  rewrite append_cons. simpl. rewrite IH. apply andb_assoc.
Qed.

Lemma rstrip_idempotent s : PyStr.rstrip (PyStr.rstrip s) = PyStr.rstrip s.
Proof.
  induction s as [|c s IH]; simpl; [reflexivity|].
  destruct (PyStr.rstrip s) as [|d r] eqn:Hr.
  - destruct (PyStr.is_space c) eqn:Hc; simpl; [reflexivity|].
    rewrite Hc. reflexivity.
  - simpl in *. rewrite IH. reflexivity.
Qed.

Lemma rstrip_keeps_head c s :
  PyStr.is_space c = false ->
  exists r, PyStr.rstrip (String c s) = String c r.
Proof.
  intros Hc. simpl. destruct (PyStr.rstrip s); [rewrite Hc|]; eauto.
Qed.

Lemma lstrip_head s :
  PyStr.lstrip s = "" \/ exists c r, PyStr.lstrip s = String c r /\ PyStr.is_space c = false.
Proof.
  induction s as [|c s IH]; simpl; [left; reflexivity|].
  destruct (PyStr.is_space c) eqn:Hc; [exact IH|].
  right. eauto.
Qed.

Lemma strip_idempotent s : PyStr.strip (PyStr.strip s) = PyStr.strip s.
Proof.
  unfold PyStr.strip.
  destruct (lstrip_head s) as [->|(c & r & -> & Hc)]; [reflexivity|].
  destruct (rstrip_keeps_head c r Hc) as [r' Hr]. rewrite Hr.
  simpl PyStr.lstrip. rewrite Hc, <- Hr. apply rstrip_idempotent.
Qed.

Lemma lstrip_length s : (String.length (PyStr.lstrip s) <= String.length s)%nat.
Proof.
  induction s as [|c s IH]; simpl; [lia|].
  destruct (PyStr.is_space c); simpl; lia.
Qed.

Lemma rstrip_length s : (String.length (PyStr.rstrip s) <= String.length s)%nat.
Proof.
  induction s as [|c s IH]; simpl; [lia|].
  destruct (PyStr.rstrip s); [destruct (PyStr.is_space c)|]; simpl in *; lia.
Qed.

Lemma strip_length s : (String.length (PyStr.strip s) <= String.length s)%nat.
Proof.
  unfold PyStr.strip.
  pose proof (rstrip_length (PyStr.lstrip s)). pose proof (lstrip_length s). lia.
Qed.

(** *** Paragraphs and sentences *)

Lemma strip_nonempty_trimmed pieces : Forall trimmed (strip_nonempty pieces).
Proof.
  unfold strip_nonempty. induction pieces as [|s pieces IH]; simpl; [constructor|].
  destruct (PyStr.strip s) as [|c r] eqn:Hs; simpl; [exact IH|].
  constructor; [|exact IH].
  split; [discriminate|]. rewrite <- Hs. apply strip_idempotent.
Qed.

(** Neither splitter returns an empty piece or a piece with whitespace
    around it. *)
Theorem split_pieces_trimmed text :
  Forall trimmed (_split_into_paragraphs text)
  /\ Forall trimmed (_split_into_sentences text).
Proof. split; apply strip_nonempty_trimmed. Qed.

Lemma trimmed_not_blank s : trimmed s -> all_space s = false.
Proof.
  intros [Hne Hs]. destruct (all_space s) eqn:Ha; [|reflexivity].
  apply strip_empty in Ha. congruence.
Qed.

(** *** Invariants of the loop of [chunk_text] *)

Lemma fold_left_invariant (P : loop_state -> Prop) self source paragraphs
      (Q : string -> Prop) st :
  Forall Q paragraphs ->
  (forall st para, Q para -> P st -> P (chunk_step self source st para)) ->
  P st -> P (fold_left (chunk_step self source) paragraphs st).
Proof.
  intros Hq Hstep. revert st.
  induction Hq as [|para rest Hpara Hrest IH]; intros st Hst; simpl; [exact Hst|].
  apply IH, Hstep; assumption.
Qed.

Lemma Forall_any {A} (l : list A) : Forall (fun _ => True) l.
Proof. induction l; constructor; auto. Qed.

Lemma chunk_step_cases self source st para :
  let st' := chunk_step self source st para in
  char_position st' = char_position st + (PyStr.len para + 2)
  /\ ((current_chunk_text st <> ""
       /\ chunks st' = chunks st ++ [closed_chunk self source st]
       /\ next_chunk_id st' = next_chunk_id st + 1
       /\ current_chunk_start st' = char_position st
       /\ exists overlap, current_chunk_text st' = overlap +:+ para)
      \/ (current_chunk_text st <> ""
          /\ chunks st' = chunks st
          /\ next_chunk_id st' = next_chunk_id st
          /\ current_chunk_start st' = char_position st
          /\ exists overlap, current_chunk_text st' = overlap +:+ para)
      \/ (current_chunk_text st <> ""
          /\ chunks st' = chunks st
          /\ next_chunk_id st' = next_chunk_id st
          /\ current_chunk_start st' = current_chunk_start st
          /\ current_chunk_text st'
             = current_chunk_text st +:+ paragraph_break +:+ para)
      \/ (current_chunk_text st = ""
          /\ chunks st' = chunks st
          /\ next_chunk_id st' = next_chunk_id st
          /\ current_chunk_start st' = char_position st
          /\ current_chunk_text st' = para)).
Proof.
  unfold chunk_step.
  assert (forall o, exists overlap,
             (if PyStr.truthy o then o +:+ paragraph_break +:+ para else para)
             = overlap +:+ para) as Hov.
  { intros o. destruct (PyStr.truthy o).
    - exists (o +:+ paragraph_break). symmetry. apply append_assoc.
    - exists "". reflexivity. }
  destruct (current_chunk_text st) as [|c s] eqn:Hcur.
  - simpl. split; [reflexivity|]. right. right. right. repeat split.
  - simpl PyStr.truthy. cbv iota.
    destruct (max_chunk_size self <? _) eqn:Hmax; simpl andb; cbv iota.
    + destruct (min_chunk_size self <=? _) eqn:Hmin.
      * simpl. split; [reflexivity|]. left.
        split; [discriminate|]. unfold closed_chunk. rewrite Hcur.
        repeat split. apply Hov.
      * simpl. split; [reflexivity|]. right. left.
        split; [discriminate|]. repeat split. apply Hov.
    + simpl. split; [reflexivity|]. right. right. left.
      split; [discriminate|]. repeat split.
Qed.

Lemma numbered_snoc l c :
  numbered l -> chunk_id c = Z.of_nat (length l) -> numbered (l ++ [c]).
Proof.
  intros Hl Hc i d Hi.
  destruct (Nat.lt_ge_cases i (length l)) as [Hlt|Hge].
  - rewrite lookup_app_l in Hi by assumption. apply Hl, Hi.
  - rewrite lookup_app_r in Hi by assumption.
    destruct (i - length l)%nat as [|k] eqn:Hk; simpl in Hi; [|discriminate].
    injection Hi as <-. rewrite Hc. f_equal. lia.
Qed.

Lemma chunk_loop_numbered self source paragraphs :
  let st := chunk_loop self source paragraphs in
  numbered (chunks st) /\ next_chunk_id st = Z.of_nat (length (chunks st)).
Proof.
  unfold chunk_loop.
  apply (fold_left_invariant
           (fun st => numbered (chunks st)
                      /\ next_chunk_id st = Z.of_nat (length (chunks st)))
           self source paragraphs (fun _ => True)); [apply Forall_any| |].
  - intros st para _ [Hn Hid].
    destruct (chunk_step_cases self source st para)
      as (_ & [(_ & -> & -> & _)|[(_ & -> & -> & _)|[(_ & -> & -> & _)|(_ & -> & -> & _)]]]);
      try (split; assumption).
    split.
    + apply numbered_snoc; [exact Hn|]. simpl. exact Hid.
    + rewrite length_app. simpl. lia.
  - split; [|reflexivity]. intros i c Hi. discriminate.
Qed.

(** X11.  Chunk ids count up from zero: the chunk at position [i] of the result
    has id [i]. *)
Theorem chunk_ids_count_up self text source (i : nat) c :
  chunk_text self text source !! i = Some c -> chunk_id c = Z.of_nat i.
Proof.
  unfold chunk_text.
  destruct (negb (PyStr.truthy text) || negb (PyStr.truthy (PyStr.strip text)));
    [discriminate|].
  destruct (chunk_loop_numbered self source (_split_into_paragraphs text)) as [Hn Hid].
  unfold emit_last. revert i c.
  destruct (PyStr.truthy _ && _); [|exact Hn].
  apply numbered_snoc; [exact Hn|]. simpl. exact Hid.
Qed.

Lemma chunk_ids_count_up_witness :
  chunk_id (mkChunk "bbbb" 18 24 "document" 1 1) = Z.of_nat 1.
Proof.
  apply (chunk_ids_count_up (ChunkingService_init 2 1 3 0 None) two_paragraphs
           "document" 1 (mkChunk "bbbb" 18 24 "document" 1 1)).
  reflexivity.
Defined.

Lemma len_nonneg s : 0 <= PyStr.len s.
Proof. unfold PyStr.len. lia. Qed.

Lemma offsets_snoc source st c :
  offsets_ok source st ->
  Chunking.source c = source ->
  start_idx c = current_chunk_start st ->
  end_idx c = char_position st ->
  Forall (well_placed source) (chunks st ++ [c])
  /\ Forall (fun d => end_idx d <= char_position st) (chunks st ++ [c])
  /\ StronglySorted (fun a b => end_idx a <= start_idx b) (chunks st ++ [c]).
Proof.
  intros (Hpos & Hwp & Hend & Hsorted) Hsrc Hstart Hendc. repeat split.
  - apply Forall_app. split; [exact Hwp|]. repeat constructor; [exact Hsrc|lia..].
  - apply Forall_app. split.
    + eapply Forall_impl; [exact Hend|]. simpl. intros d Hd. lia.
    + repeat constructor. lia.
  - apply StronglySorted_app. repeat split; [|exact Hsorted|repeat constructor].
    intros a b Ha Hb. apply list_elem_of_singleton in Hb as ->.
    rewrite Forall_forall in Hend. specialize (Hend a Ha). lia.
Qed.

Lemma chunk_loop_offsets self source paragraphs :
  offsets_ok source (chunk_loop self source paragraphs).
Proof.
  unfold chunk_loop.
  apply (fold_left_invariant (offsets_ok source) self source paragraphs
                             (fun _ => True)); [apply Forall_any| |].
  - intros st para _ Hok.
    pose proof (len_nonneg para) as Hlen.
    pose proof Hok as (Hpos & Hwp & Hend & Hsorted).
    destruct (chunk_step_cases self source st para)
      as (Hp & [(_ & Hc & _ & Hs & _)|[(_ & Hc & _ & Hs & _)
                |[(_ & Hc & _ & Hs & _)|(_ & Hc & _ & Hs & _)]]]);
      unfold offsets_ok; rewrite Hp, Hc, Hs.
    + destruct (offsets_snoc source st (closed_chunk self source st) Hok)
        as (H1 & H2 & H3); try reflexivity.
      repeat split; try assumption; lia.
    + repeat split; try assumption; try lia.
      eapply Forall_impl; [exact Hend|]. simpl. intros d Hd. lia.
    + repeat split; try assumption; lia.
    + repeat split; try assumption; try lia.
      eapply Forall_impl; [exact Hend|]. simpl. intros d Hd. lia.
  - unfold offsets_ok. simpl. repeat split; try constructor; lia.
Qed.

(** X12.  Every chunk carries the source asked for and offsets with
    [0 <= start_idx <= end_idx], and a chunk starts where an earlier one
    ended or later. *)
Theorem chunk_offsets_in_order self text source :
  Forall (well_placed source) (chunk_text self text source)
  /\ StronglySorted (fun a b => end_idx a <= start_idx b)
                    (chunk_text self text source).
Proof.
  unfold chunk_text.
  destruct (negb (PyStr.truthy text) || negb (PyStr.truthy (PyStr.strip text)));
    [split; constructor|].
  pose proof (chunk_loop_offsets self source (_split_into_paragraphs text)) as Hok.
  unfold emit_last.
  destruct (PyStr.truthy _ && _).
  - destruct (offsets_snoc source _ (last_chunk self source
                 (chunk_loop self source (_split_into_paragraphs text))) Hok)
      as (H1 & _ & H3); try reflexivity.
    split; assumption.
  - destruct Hok as (_ & Hwp & _ & Hsorted). split; assumption.
Qed.

(** There are never more chunks than paragraphs. *)
Lemma chunk_loop_count self source paragraphs :
  (length (chunks (chunk_loop self source paragraphs))
   + buffer_slot (chunk_loop self source paragraphs) <= length paragraphs)%nat.
Proof.
  unfold chunk_loop.
  assert (forall st n,
             (length (chunks st) + buffer_slot st <= n)%nat ->
             (length (chunks (fold_left (chunk_step self source) paragraphs st))
              + buffer_slot (fold_left (chunk_step self source) paragraphs st)
              <= n + length paragraphs)%nat) as H.
  { induction paragraphs as [|para rest IH]; intros st n Hn; simpl; [lia|].
    replace (n + S (length rest))%nat with (S n + length rest)%nat by lia.
    apply IH.
    assert (forall s, (buffer_slot s <= 1)%nat) as Hb.
    { intros s. unfold buffer_slot. destruct (PyStr.truthy _); lia. }
    pose proof (Hb (chunk_step self source st para)).
    assert (current_chunk_text st <> "" -> buffer_slot st = 1%nat) as Hfull.
    { unfold buffer_slot. destruct (current_chunk_text st); [congruence|reflexivity]. }
    pose proof (chunk_step_cases self source st para) as Hcases.
    cbv zeta in Hcases.
    destruct Hcases
      as (_ & [(Hne & Hc & _)|[(Hne & Hc & _)|[(Hne & Hc & _)|(He & Hc & _)]]]);
      rewrite Hc; try rewrite length_app; cbn [length];
      try specialize (Hfull Hne); lia. }
  apply (H initial_state 0%nat). unfold buffer_slot. simpl. lia.
Qed.

(** X13.  There are never more chunks than paragraphs. *)
Theorem chunks_at_most_paragraphs self text source :
  (length (chunk_text self text source)
   <= length (_split_into_paragraphs text))%nat.
Proof.
  unfold chunk_text.
  destruct (negb (PyStr.truthy text) || negb (PyStr.truthy (PyStr.strip text)));
    [simpl; lia|].
  pose proof (chunk_loop_count self source (_split_into_paragraphs text)) as H.
  unfold emit_last, buffer_slot in *.
  destruct (PyStr.truthy _); simpl in *.
  - destruct (min_chunk_size self <=? _); [rewrite length_app; simpl|]; lia.
  - lia.
Qed.

(** No chunk has an empty text or whitespace around its text. *)
Lemma chunk_loop_buffer self source paragraphs :
  Forall trimmed paragraphs ->
  let st := chunk_loop self source paragraphs in
  (current_chunk_text st = "" \/ all_space (current_chunk_text st) = false)
  /\ Forall (fun c => trimmed (Chunking.text c)) (chunks st).
Proof.
  intros Hp. unfold chunk_loop.
  apply (fold_left_invariant
           (fun st => (current_chunk_text st = ""
                       \/ all_space (current_chunk_text st) = false)
                      /\ Forall (fun c => trimmed (Chunking.text c)) (chunks st))
           self source paragraphs trimmed initial_state Hp).
  - intros st para Hpara [Hbuf Hch].
    apply trimmed_not_blank in Hpara.
    destruct (chunk_step_cases self source st para)
      as (_ & [(Hne & -> & _ & _ & [o ->])|[(_ & -> & _ & _ & [o ->])
                |[(_ & -> & _ & _ & ->)|(_ & -> & _ & _ & ->)]]]).
    + split.
      * right. rewrite all_space_app, Hpara. apply andb_false_r.
      * apply Forall_app. split; [exact Hch|]. repeat constructor; simpl.
        -- destruct Hbuf as [H|H]; [contradiction|].
           intros He. apply strip_empty in He. congruence.
        -- apply strip_idempotent.
    + split; [|exact Hch].
      right. rewrite all_space_app, Hpara. apply andb_false_r.
    + split; [|exact Hch].
      right. rewrite !all_space_app, Hpara. rewrite !andb_false_r. reflexivity.
    + split; [|exact Hch]. right. exact Hpara.
  - split; [left; reflexivity|constructor].
Qed.

(** X14.  No chunk has an empty text or whitespace around its text. *)
Theorem chunk_texts_trimmed self text source :
  Forall (fun c => trimmed (Chunking.text c)) (chunk_text self text source).
Proof.
  unfold chunk_text.
  destruct (negb (PyStr.truthy text) || negb (PyStr.truthy (PyStr.strip text)));
    [constructor|].
  destruct (chunk_loop_buffer self source (_split_into_paragraphs text))
    as [Hbuf Hch]; [apply strip_nonempty_trimmed|].
  unfold emit_last.
  destruct (PyStr.truthy _) eqn:Ht; simpl; [|exact Hch].
  destruct (min_chunk_size self <=? _); [|exact Hch].
  apply Forall_app. split; [exact Hch|]. repeat constructor; simpl.
  - destruct Hbuf as [H|H]; [rewrite H in Ht; discriminate|].
    intros He. apply strip_empty in He. congruence.
  - apply strip_idempotent.
Qed.

(** *** Overlap *)

Lemma fallback_count_strip self s :
  _tokenizer self = None ->
  count_tokens self (PyStr.strip s) <= count_tokens self s.
Proof.
  intros Hn. unfold count_tokens. rewrite Hn. unfold PyStr.len.
  apply Z.div_le_mono; [lia|]. pose proof (strip_length s). lia.
Qed.

Lemma overlap_loop_bound self rev_sentences overlap_text :
  count_tokens self overlap_text <= overlap_tokens self ->
  count_tokens self (overlap_loop self rev_sentences overlap_text)
  <= overlap_tokens self.
Proof.
  revert overlap_text.
  induction rev_sentences as [|sentence rest IH]; intros overlap_text Hb; simpl.
  - exact Hb.
  - destruct (Z.leb_spec (count_tokens self
                 (if PyStr.truthy overlap_text
                  then sentence +:+ " " +:+ overlap_text else sentence))
               (overlap_tokens self)) as [Hle|Hgt].
    + apply IH, Hle.
    + exact Hb.
Qed.

(** X15.  With the character-count estimate and a non-negative [overlap_tokens],
    the overlap carried into the next chunk never has more than
    [overlap_tokens] tokens. *)
Theorem overlap_within_limit self text :
  _tokenizer self = None ->
  0 <= overlap_tokens self ->
  count_tokens self (_get_overlap_text self text) <= overlap_tokens self.
Proof.
  intros Hn Hpos. unfold _get_overlap_text.
  assert (count_tokens self "" <= overlap_tokens self) as H0.
  { unfold count_tokens. rewrite Hn. simpl. exact Hpos. }
  destruct (PyStr.truthy text); [|exact H0].
  etransitivity; [apply fallback_count_strip, Hn|].
  apply overlap_loop_bound, H0.
Qed.

Lemma overlap_within_limit_witness :
  let self := ChunkingService_init 500 100 800 2 None in
  count_tokens self (_get_overlap_text self "One. Two two. Three three.")
  <= overlap_tokens self.
Proof.
  intros self.
  apply (overlap_within_limit self "One. Two two. Three three.");
    [reflexivity | simpl; lia].
Defined.

End ChunkerFacts.

(** ** More on the embedder *)

Module EmbedderFacts.
Import Embedding EmbedderNotions.

Section WithModel.

Context {V : Type}.
Variable encode : string -> V.
Variable md5 : string -> string.

(** *** One text *)

(** Looking a text up does not change what the cache answers. *)
Lemma lookup_after_lookup (self : @EmbeddingService V) text text' :
  cached_value md5 (_get_cached_embedding md5 self text).2 text'
  = cached_value md5 self text'.
Proof.
  unfold cached_value.
  unfold _get_cached_embedding at 2.
  destruct (use_cache self) eqn:Hu; simpl; [|reflexivity].
  destruct (_cache self !! _get_cache_key md5 self text) as [e|] eqn:Hk; simpl;
    [reflexivity|].
  destruct (PyStr.truthy (cache_dir self)) eqn:Hd; simpl; [|reflexivity].
  destruct (disk self !! cache_file self (_get_cache_key md5 self text))
    as [e|] eqn:Hf; simpl; [|reflexivity].
  unfold _get_cached_embedding, _get_cache_key, cache_file in *. simpl.
  rewrite Hu, Hd. simpl.
  destruct (decide (md5 (model_name self +:+ ":" +:+ text')
                    = md5 (model_name self +:+ ":" +:+ text))) as [Heq|Hne].
  - rewrite Heq, lookup_insert_eq, Hk, Hf. reflexivity.
  - rewrite lookup_insert_ne by congruence.
    destruct (_cache self !! md5 (model_name self +:+ ":" +:+ text')); [reflexivity|].
    destruct (disk self !! (cache_dir self +:+ "/"
                            +:+ md5 (model_name self +:+ ":" +:+ text') +:+ ".npy"));
      reflexivity.
Qed.

Lemma embed_text_hit (s : @EmbeddingService V) text e :
  use_cache s = true ->
  _cache s !! _get_cache_key md5 s text = Some e ->
  embed_text encode md5 s text = (e, s).
Proof.
  intros Hs He. unfold embed_text, _get_cached_embedding.
  rewrite Hs, He. reflexivity.
Qed.

Lemma cache_embedding_hit (s : @EmbeddingService V) text e :
  use_cache s = true ->
  use_cache (_cache_embedding md5 s text e) = true
  /\ _cache (_cache_embedding md5 s text e)
       !! _get_cache_key md5 (_cache_embedding md5 s text e) text = Some e.
Proof.
  intros Hs. unfold _cache_embedding, _get_cache_key. rewrite Hs. simpl.
  split; [reflexivity | apply lookup_insert_eq].
Qed.

(** X17.  With the cache in use, a second call for the same text returns the
    same vector and leaves the service as the first call left it. *)
Theorem embed_text_twice (self : @EmbeddingService V) text :
  use_cache self = true ->
  embed_text encode md5 (embed_text encode md5 self text).2 text
  = embed_text encode md5 self text.
Proof.
  intros Hu. unfold embed_text at 2 3.
  unfold _get_cached_embedding. rewrite Hu. simpl.
  destruct (_cache self !! _get_cache_key md5 self text) as [e|] eqn:Hk.
  { simpl. apply embed_text_hit; assumption. }
  destruct (PyStr.truthy (cache_dir self)) eqn:Hd.
  - destruct (disk self !! cache_file self (_get_cache_key md5 self text))
      as [e|] eqn:Hf; simpl.
    + apply embed_text_hit; [reflexivity|]. unfold _get_cache_key. simpl.
      apply lookup_insert_eq.
    + apply embed_text_hit; apply cache_embedding_hit, Hu.
  - simpl. apply embed_text_hit; apply cache_embedding_hit, Hu.
Qed.

(** *** A batch *)

Lemma scan_cache_spec texts :
  forall (self0 self : @EmbeddingService V) i b,
    (forall t, cached_value md5 self t = cached_value md5 self0 t) ->
    (scan_cache md5 self i texts b).1
    = mkBatch (embeddings b ++ hits md5 self0 i texts)
              (texts_to_embed b ++ (misses md5 self0 i texts).*2)
              (indices_to_embed b ++ (misses md5 self0 i texts).*1).
Proof.
  induction texts as [|text rest IH]; intros self0 self i b Hsame.
  - simpl. rewrite !app_nil_r. destruct b; reflexivity.
  - simpl scan_cache. simpl hits. simpl misses.
    pose proof (Hsame text) as Htext. unfold cached_value at 1 in Htext.
    pose proof (lookup_after_lookup self text) as Hnext.
    destruct (_get_cached_embedding md5 self text) as [o self'].
    simpl in Htext, Hnext. rewrite <- Htext.
    assert (forall t, cached_value md5 self' t = cached_value md5 self0 t) as Hsame'.
    { intros t. rewrite Hnext. apply Hsame. }
    destruct o as [cached|].
    + rewrite (IH self0 self' (S i) _ Hsame'). simpl.
      rewrite <- app_assoc. reflexivity.
    + rewrite (IH self0 self' (S i) _ Hsame'). simpl.
      rewrite <- !app_assoc. reflexivity.
Qed.

Lemma store_new_spec (self : @EmbeddingService V) b pairs acc :
  (store_new md5 self b pairs acc).1
  = acc ++ map (fun p => (original_index b p.1, p.2)) pairs.
Proof.
  revert self acc. induction pairs as [|[text e] rest IH]; intros self acc; simpl.
  - rewrite app_nil_r. reflexivity.
  - rewrite IH, <- app_assoc. reflexivity.
Qed.

Lemma zip_with_encode (g : string -> nat) (l : list string) :
  map (fun p : string * V => (g p.1, p.2)) (zip l (map encode l))
  = map (fun t => (g t, encode t)) l.
Proof. induction l as [|t l IH]; simpl; [reflexivity|]. rewrite IH. reflexivity. Qed.

Lemma index_first {A} `{EqDecision A} (l : list A) k x :
  NoDup l -> l !! k = Some x -> PyList.index x l = Some k.
Proof.
  revert k. induction l as [|y l IH]; intros k Hnd Hk; [discriminate|].
  apply NoDup_cons in Hnd as [Hy Hnd]. simpl.
  destruct k as [|k]; simpl in Hk.
  - injection Hk as ->. rewrite decide_True by reflexivity. reflexivity.
  - rewrite decide_False.
    + rewrite (IH k Hnd Hk). reflexivity.
    + intros ->. apply Hy. eapply list_elem_of_lookup_2, Hk.
Qed.

(** Without a repeated text among those to embed, each new embedding is
    filed under the position of its own text. *)
Lemma original_index_misses (ms : list (nat * string)) :
  NoDup ms.*2 ->
  map (fun t => (original_index (mkBatch (V := V) [] ms.*2 ms.*1) t, encode t)) ms.*2
  = map (fun m => (m.1, encode m.2)) ms.
Proof.
  intros Hnd. apply list_eq. intros k.
  rewrite !list_lookup_fmap.
  destruct (ms !! k) as [[i t]|] eqn:Hk; simpl; [|reflexivity].
  unfold original_index. simpl.
  rewrite (index_first ms.*2 k t Hnd) by (rewrite list_lookup_fmap, Hk; reflexivity).
  simpl. rewrite list_lookup_fmap, Hk. reflexivity.
Qed.

Lemma misses_uncached (self : @EmbeddingService V) i texts :
  (misses md5 self i texts).*2 = uncached md5 self texts.
Proof.
  unfold uncached. revert i. induction texts as [|t rest IH]; intros i; [reflexivity|].
  simpl. destruct (cached_value md5 self t) as [c|] eqn:Hc.
  - rewrite filter_cons_False by (rewrite Hc; discriminate). apply IH.
  - rewrite filter_cons_True by exact Hc. simpl. f_equal. apply IH.
Qed.

(** The pairs the sort receives are those of the batch in some order. *)
Lemma hits_and_misses (self : @EmbeddingService V) i texts :
  hits md5 self i texts
  ++ map (fun m => (m.1, encode m.2)) (misses md5 self i texts)
  ≡ₚ zip (seq i (length texts)) (map (embedding_of encode md5 self) texts).
Proof.
  revert i. induction texts as [|t rest IH]; intros i; [reflexivity|].
  simpl. unfold embedding_of at 1.
  destruct (cached_value md5 self t) as [c|]; simpl.
  - constructor. apply IH.
  - rewrite <- Permutation_middle. constructor. apply IH.
Qed.

Lemma insert_by_permutation {A} (leb : A -> A -> bool) x l :
  PyList.insert_by leb x l ≡ₚ x :: l.
Proof.
  induction l as [|y l IH]; simpl; [reflexivity|].
  destruct (leb x y); [reflexivity|].
  rewrite IH. apply Permutation_swap.
Qed.

Lemma stable_sort_permutation {A} (leb : A -> A -> bool) l :
  PyList.stable_sort leb l ≡ₚ l.
Proof.
  induction l as [|x l IH]; simpl; [reflexivity|].
  rewrite insert_by_permutation, IH. reflexivity.
Qed.

Lemma insert_by_index_sorted (x : nat * V) (l : list (nat * V)) :
  StronglySorted index_le l ->
  StronglySorted index_le (PyList.insert_by by_index x l).
Proof.
  induction l as [|y l IH]; intros Hs; simpl.
  - repeat constructor.
  - apply StronglySorted_cons in Hs as [Hy Hs].
    unfold by_index at 1. destruct (Nat.leb_spec x.1 y.1) as [Hle|Hgt].
    + apply StronglySorted_cons. split.
      * constructor; [exact Hle|].
        eapply Forall_impl; [exact Hy|].
        unfold index_le. intros z Hz. lia.
      * apply StronglySorted_cons. split; assumption.
    + apply StronglySorted_cons. split; [|apply IH, Hs].
      rewrite insert_by_permutation. constructor; [|exact Hy].
      unfold index_le. lia.
Qed.

Lemma stable_sort_index_sorted (l : list (nat * V)) :
  StronglySorted index_le (PyList.stable_sort by_index l).
Proof.
  induction l as [|x l IH]; simpl; [constructor|].
  apply insert_by_index_sorted, IH.
Qed.

Lemma zip_seq_from {A} (l : list A) i :
  Forall (fun h : nat * A => (i <= h.1)%nat) (zip (seq i (length l)) l).
Proof.
  revert i. induction l as [|x l IH]; intros i; simpl; constructor.
  - simpl. lia.
  - eapply Forall_impl; [apply (IH (S i))|]. simpl. intros h Hh. lia.
Qed.

Lemma zip_seq_sorted (l : list V) i :
  StronglySorted index_le (zip (seq i (length l)) l)
  /\ forall x y, x ∈ zip (seq i (length l)) l -> y ∈ zip (seq i (length l)) l ->
                 x.1 = y.1 -> x = y.
Proof.
  revert i. induction l as [|v l IH]; intros i; simpl.
  - split; [constructor|]. intros x y Hx. apply elem_of_nil in Hx as [].
  - destruct (IH (S i)) as [Hs Hinj].
    pose proof (zip_seq_from l (S i)) as Hlow.
    rewrite Forall_forall in Hlow. split.
    + constructor; [exact Hs|].
      apply Forall_forall. intros h Hh. specialize (Hlow h Hh).
      unfold index_le. simpl. lia.
    + intros x y Hx Hy Hxy.
      apply elem_of_cons in Hx as [->|Hx]; apply elem_of_cons in Hy as [->|Hy].
      * reflexivity.
      * specialize (Hlow y Hy). simpl in Hxy. lia.
      * specialize (Hlow x Hx). simpl in Hxy. lia.
      * apply Hinj; assumption.
Qed.

(** X18.  One row comes back for each text of the batch, whatever the cache
    holds and whether or not texts repeat. *)
Theorem embed_texts_same_length (self : @EmbeddingService V) texts :
  length (embed_texts encode md5 self texts).1 = length texts.
Proof. exact (EmbeddingFacts.embed_texts_length encode md5 self texts). Qed.

(** X19.  For a batch whose texts to embed are all different, the rows come back
    in the order of the batch: row [i] is the embedding of text [i], taken
    from the cache when it is there and from the model otherwise.  Cached
    texts may repeat. *)
Theorem embed_texts_in_order (self : @EmbeddingService V) texts :
  NoDup (uncached md5 self texts) ->
  (embed_texts encode md5 self texts).1 = map (embedding_of encode md5 self) texts.
Proof.
  intros Hnd. unfold embed_texts.
  destruct texts as [|t0 texts0]; [reflexivity|].
  remember (t0 :: texts0) as texts eqn:Htexts.
  pose proof (scan_cache_spec texts self self 0 (mkBatch [] [] [])
                (fun t => eq_refl)) as Hscan.
  cbn [embeddings texts_to_embed indices_to_embed app] in Hscan.
  destruct (scan_cache md5 self 0 texts (mkBatch [] [] [])) as [b self1].
  cbn [fst] in Hscan. subst b.
  set (ms := misses md5 self 0 texts) in *.
  assert (NoDup ms.*2) as Hms.
  { unfold ms. rewrite misses_uncached. exact Hnd. }
  assert (exists all self2,
             match texts_to_embed (mkBatch (hits md5 self 0 texts) ms.*2 ms.*1) with
             | [] => (embeddings (mkBatch (hits md5 self 0 texts) ms.*2 ms.*1), self1)
             | _ :: _ =>
                 store_new md5 self1 (mkBatch (hits md5 self 0 texts) ms.*2 ms.*1)
                   (zip (texts_to_embed (mkBatch (hits md5 self 0 texts) ms.*2 ms.*1))
                        (map encode
                             (texts_to_embed
                                (mkBatch (hits md5 self 0 texts) ms.*2 ms.*1))))
                   (embeddings (mkBatch (hits md5 self 0 texts) ms.*2 ms.*1))
             end = (all, self2)
             /\ all = hits md5 self 0 texts ++ map (fun m => (m.1, encode m.2)) ms)
    as (all & self2 & -> & Hall).
  { simpl. destruct ms.*2 as [|u us] eqn:Hu.
    - eexists _, _. split; [reflexivity|].
      destruct ms; [rewrite app_nil_r; reflexivity|discriminate].
    - rewrite <- Hu in *.
      pose proof (store_new_spec self1 (mkBatch (hits md5 self 0 texts) ms.*2 ms.*1)
                    (zip ms.*2 (map encode ms.*2)) (hits md5 self 0 texts)) as Hs.
      destruct (store_new md5 self1 _ _ _) as [all self2]. simpl in Hs.
      eexists _, _. split; [reflexivity|]. rewrite Hs. f_equal.
      rewrite zip_with_encode.
      rewrite <- (original_index_misses ms Hms).
      apply map_ext. intros t. reflexivity. }
  simpl.
  destruct (zip_seq_sorted (map (embedding_of encode md5 self) texts) 0)
    as [Hsorted Hinj].
  rewrite length_map in Hsorted, Hinj.
  assert (PyList.stable_sort by_index all
          = zip (seq 0 (length texts)) (map (embedding_of encode md5 self) texts))
    as ->.
  { assert (PyList.stable_sort by_index all
            ≡ₚ zip (seq 0 (length texts)) (map (embedding_of encode md5 self) texts))
      as Hperm.
    { rewrite stable_sort_permutation, Hall. apply hits_and_misses. }
    apply (StronglySorted_unique_strong index_le);
      [|apply stable_sort_index_sorted|exact Hsorted|exact Hperm].
    intros x y Hx Hy Hxy Hyx. apply Hinj; [|exact Hy|unfold index_le in *; lia].
    rewrite <- Hperm. exact Hx. }
  change (map snd ?l) with (l.*2).
  apply snd_zip. rewrite length_seq, length_map. lia.
Qed.

End WithModel.
Lemma embed_text_twice_witness :
  embed_text code_points (fun s => s)
             (embed_text code_points (fun s => s) (fresh "all-MiniLM-L6-v2") "a").2 "a"
  = embed_text code_points (fun s => s) (fresh "all-MiniLM-L6-v2") "a".
Proof.
  apply (embed_text_twice code_points (fun s => s) (fresh "all-MiniLM-L6-v2") "a").
  reflexivity.
Defined.

Lemma embed_texts_in_order_witness :
  (embed_texts code_points (fun s => s) (fresh "all-MiniLM-L6-v2") ["a"; "b"; "c"]).1
  = map (embedding_of code_points (fun s => s) (fresh "all-MiniLM-L6-v2"))
        ["a"; "b"; "c"].
Proof.
  apply (embed_texts_in_order code_points (fun s => s) (fresh "all-MiniLM-L6-v2")
           ["a"; "b"; "c"]).
  apply (bool_decide_unpack _). vm_compute. reflexivity.
Defined.

End EmbedderFacts.

(** ** More on the vector store *)

Module StoreFacts.
Import VectorStore VectorStoreFacts StoreNotions Similarity VectorStoreIO.
Open Scope R_scope.

(** *** Cosines *)

Lemma dot_comm u v : dot u v = dot v u.
Proof.
  unfold dot. revert v. induction u as [|a u IH]; intros [|x v]; simpl;
    try reflexivity.
  rewrite IH. lra.
Qed.

Lemma cross_term a x S A B :
  0 <= A -> 0 <= B -> S * S <= A * B -> 2 * a * x * S <= a * a * B + A * x * x.
Proof.
  intros HA HB HS.
  destruct (Req_dec_T A 0) as [->|HA0].
  - assert (S = 0) by nra. subst S. nra.
  - assert (0 < A) by lra.
    assert (0 <= A * (a * a * B + A * x * x - 2 * a * x * S)) as Hprod.
    { pose proof (Rle_0_sqr (a * S - A * x)) as Hsq. unfold Rsqr in Hsq. nra. }
    nra.
Qed.

(** Cauchy-Schwarz for [np.dot]. *)
Lemma dot_square u v : dot u v * dot u v <= dot u u * dot v v.
Proof.
  revert v. induction u as [|a u IH]; intros v.
  - unfold dot. simpl. lra.
  - destruct v as [|x v].
    + change (dot (a :: u) []) with 0. change (dot [] []) with 0. lra.
    + specialize (IH v).
      pose proof (dot_self_nonneg u) as HA. pose proof (dot_self_nonneg v) as HB.
      pose proof (cross_term a x (dot u v) (dot u u) (dot v v) HA HB IH) as Hc.
      change (dot (a :: u) (x :: v)) with (a * x + dot u v).
      change (dot (a :: u) (a :: u)) with (a * a + dot u u).
      change (dot (x :: v) (x :: v)) with (x * x + dot v v).
      nra.
Qed.

Lemma dot_within_norms u v : Rabs (dot u v) <= norm u * norm v.
Proof.
  unfold norm. rewrite <- sqrt_mult by apply dot_self_nonneg.
  rewrite <- sqrt_Rsqr_abs. apply sqrt_le_1.
  - apply Rle_0_sqr.
  - apply Rmult_le_pos; apply dot_self_nonneg.
  - unfold Rsqr. apply dot_square.
Qed.

Lemma Rabs_bound x y : Rabs x <= y -> - y <= x <= y.
Proof.
  intros H. pose proof (Rle_abs x). pose proof (Rle_abs (- x)) as Hn.
  rewrite Rabs_Ropp in Hn. lra.
Qed.

(** [similarity] does not depend on the order of its arguments. *)
Theorem similarity_symmetric u v : similarity u v = similarity v u.
Proof.
  unfold similarity.
  destruct (Req_dec_T (norm u) 0), (Req_dec_T (norm v) 0); try reflexivity.
  rewrite (Nat.eqb_sym (length v) (length u)), (dot_comm v u),
    (Rmult_comm (norm v) (norm u)).
  reflexivity.
Qed.







(** *** [add] *)

(** The lengths of the three lists after [add]. *)
Lemma add_aligned self texts embeddings metadata :
  aligned self ->
  length embeddings = length texts ->
  (forall m, metadata = Some m -> m = [] \/ length m = length texts) ->
  aligned (add self texts embeddings metadata)
  /\ size (add self texts embeddings metadata)
     = (size self + Z.of_nat (length texts))%Z.
Proof.
  intros [Hm He] Hl Hmeta. unfold size.
  destruct texts as [|t texts]; [simpl; split; [split; assumption|lia]|].
  split; [split|]; simpl _texts; simpl _metadata; simpl _embeddings.
  - rewrite !length_app, Hm. f_equal.
    destruct metadata as [[|m ms]|].
    + simpl. rewrite length_map. reflexivity.
    + destruct (Hmeta (m :: ms) eq_refl) as [H|H]; [discriminate|exact H].
    + simpl. rewrite length_map. reflexivity.
  - rewrite !length_app, length_map, He, Hl. reflexivity.
  - rewrite length_app. lia.
Qed.

(** X22.  With as many rows as texts, and metadata that is absent, empty or
    as long as the texts, [add] keeps one metadata entry and one row per
    text and raises the size by the number of texts. *)
Theorem add_keeps_alignment self texts embeddings metadata :
  aligned self ->
  length embeddings = length texts ->
  (forall m, metadata = Some m -> m = [] \/ length m = length texts) ->
  aligned (add self texts embeddings metadata)
  /\ size (add self texts embeddings metadata)
     = (size self + Z.of_nat (length texts))%Z.
Proof. exact (add_aligned self texts embeddings metadata). Qed.

Lemma add_keeps_alignment_witness :
  aligned (add (VectorStore_init 1) ["first"; "second"] [[1]; [1]] None)
  /\ size (add (VectorStore_init 1) ["first"; "second"] [[1]; [1]] None)
     = (size (VectorStore_init 1) + Z.of_nat (length ["first"; "second"]))%Z.
Proof.
  apply (add_keeps_alignment (VectorStore_init 1) ["first"; "second"]
           [[1]; [1]] None).
  - split; reflexivity.
  - reflexivity.
  - intros m Hm. discriminate.
Defined.

(** *** What [search] returns *)

Lemma collect_returns self min_score hits results :
  collect self min_score hits = Ok results ->
  Forall2 (built_from self) (kept_hits min_score hits) results.
Proof.
  revert results. induction hits as [|[idx sc] hits IH]; intros results; simpl.
  - intros [= <-]. constructor.
  - unfold kept_hits. rewrite filter_cons. simpl.
    destruct (Rltb sc min_score) eqn:Hlt.
    + rewrite decide_False by discriminate. apply IH.
    + rewrite decide_True by reflexivity.
      destruct (_texts self !! idx) as [t|] eqn:Ht; [|discriminate].
      destruct (collect self min_score hits) as [rs|e]; [|discriminate].
      intros [= <-]. constructor; [|apply IH; reflexivity].
      split; [reflexivity|exact Ht].
Qed.

(** A call that returns either returns nothing or returns the rows that
    pass the threshold among the first [top_k] of the ranking. *)
Lemma search_returns self query top_k min_score results :
  search self query top_k min_score = Ok results ->
  results = []
  \/ (norm query > 0
      /\ Forall2 (built_from self)
                 (kept_hits min_score
                    (top_indices (map (fun row => dot row (against query))
                                      (_embeddings self)) top_k))
                 results).
Proof.
  unfold search, against.
  destruct (_texts self); [intros [= <-]; left; reflexivity|].
  destruct (Rgt_dec (norm query) 0) as [Hn|_];
    [|intros [= <-]; left; reflexivity].
  unfold row_scores.
  destruct (_embeddings self) as [|row rows]; [discriminate|].
  destruct (forallb _ (row :: rows)); [|discriminate].
  intros Hc. right. split; [exact Hn|]. apply collect_returns, Hc.
Qed.

Lemma enumerate_indices {A} (l : list A) : (enumerate l).*1 = seq 0 (length l).
Proof. unfold enumerate. apply fst_zip. rewrite length_seq. lia. Qed.

Lemma argsort_permutation scores : argsort scores ≡ₚ enumerate scores.
Proof. apply EmbedderFacts.stable_sort_permutation. Qed.

Lemma top_indices_sublist scores top_k :
  top_indices scores top_k `sublist_of` rev (argsort scores).
Proof.
  unfold top_indices, PyList.slice_to.
  destruct (0 <=? top_k)%Z; apply sublist_take.
Qed.

Lemma top_indices_positions scores top_k min_score :
  NoDup (kept_hits min_score (top_indices scores top_k)).*1.
Proof.
  apply (sublist_NoDup _ (rev (argsort scores)).*1).
  - rewrite <- Permutation_rev, argsort_permutation, enumerate_indices.
    apply NoDup_seq.
  - apply fmap_sublist. etransitivity; [apply sublist_filter|].
    apply top_indices_sublist.
Qed.

(** X23.  Every result is a stored text, and no position of the store is
    returned twice. *)
Theorem search_returns_stored_texts self query top_k min_score results :
  search self query top_k min_score = Ok results ->
  exists positions : list nat,
    NoDup positions
    /\ Forall2 (fun i r => _texts self !! i = Some (text r)) positions results.
Proof.
  intros Hs. destruct (search_returns _ _ _ _ _ Hs) as [->|[_ Hb]].
  - exists []. split; constructor.
  - eexists. split; [apply top_indices_positions|].
    apply Forall2_fmap_l. eapply Forall2_impl; [exact Hb|].
    intros h r [_ Ht]. exact Ht.
Qed.

Lemma search_returns_stored_texts_witness :
  exists positions : list nat,
    NoDup positions
    /\ Forall2 (fun i r => _texts twins !! i = Some (text r)) positions
               [mkSearchResult "second" (VStr "unknown") (VInt 1) 1 ∅;
                mkSearchResult "first" (VStr "unknown") (VInt 0) 1 ∅].
Proof.
  apply (search_returns_stored_texts twins [1] 2 0).
  rewrite twins_search. unfold top_indices. rewrite argsort_twins.
  simpl. rewrite twins_pass. reflexivity.
Defined.

(** X24.  The ranking keeps the best: a row left out by [[:top_k]] scores no
    higher than any row kept. *)
Theorem top_indices_are_best scores top_k (i : nat) s :
  scores !! i = Some s ->
  (i, s) ∉ top_indices scores top_k ->
  Forall (fun h => s <= h.2) (top_indices scores top_k).
Proof.
  intros Hi Hout.
  assert ((i, s) ∈ rev (argsort scores)) as Hin.
  { rewrite <- Permutation_rev, argsort_permutation. unfold enumerate.
    apply list_elem_of_lookup. exists i.
    apply lookup_zip_with_Some. exists i, s. repeat split; [|exact Hi].
    apply lookup_seq. split; [reflexivity|]. apply lookup_lt_Some in Hi. exact Hi. }
  pose proof (StronglySorted_rev _ _ (argsort_ascending scores)) as Hs.
  unfold top_indices, PyList.slice_to in *.
  set (n := if (0 <=? top_k)%Z then Z.to_nat top_k
            else Z.to_nat (Z.of_nat (length (rev (argsort scores))) + top_k)).
  assert (forall l : list (nat * R),
             (if (0 <=? top_k)%Z then take (Z.to_nat top_k) l
              else take (Z.to_nat (Z.of_nat (length (rev (argsort scores))) + top_k)) l)
             = take n l) as Htake.
  { intros l. unfold n. destruct (0 <=? top_k)%Z; reflexivity. }
  rewrite Htake in *.
  rewrite <- (take_drop n (rev (argsort scores))) in Hin, Hs.
  apply elem_of_app in Hin as [Hin|Hin]; [contradiction|].
  apply Forall_forall. intros h Hh.
  apply (StronglySorted_app_1_elem_of _ _ _ h (i, s) Hs Hh Hin).
Qed.

Lemma top_indices_are_best_witness :
  Forall (fun h : nat * R => 1 <= h.2) (top_indices [1; 1] 1).
Proof.
  apply (top_indices_are_best [1; 1] 1 0 1); [reflexivity|].
  unfold top_indices. rewrite argsort_twins. simpl.
  intros H. apply list_elem_of_singleton in H. inversion H.
Defined.

Lemma filter_enumerate_length {A} (P : A -> bool) (l : list A) k :
  length (filter (fun h : nat * A => P h.2 = true) (zip (seq k (length l)) l))
  = length (filter (fun x => P x = true) l).
Proof.
  revert k. induction l as [|x l IH]; intros k; [reflexivity|].
  simpl. rewrite !filter_cons. simpl.
  destruct (decide (P x = true)); simpl; rewrite (IH (S k)); reflexivity.
Qed.

Lemma filter_map_length {A B} (f : A -> B) (P : B -> bool) (l : list A) :
  length (filter (fun y => P y = true) (map f l))
  = length (filter (fun x => P (f x) = true) l).
Proof.
  induction l as [|x l IH]; [reflexivity|].
  simpl. rewrite !filter_cons.
  destruct (decide (P (f x) = true)); simpl; rewrite IH; reflexivity.
Qed.

(** X25.  When [top_k] is at least the size of the store, nothing above the
    threshold is left out: there are as many results as rows that score
    [min_score] or more against the query. *)
Theorem search_leaves_nothing_out self query top_k min_score :
  norm query <> 0 ->
  store_ok (length query) self ->
  (size self <= top_k)%Z ->
  exists results,
    search self query top_k min_score = Ok results
    /\ length results
       = length (filter (fun row => negb (Rltb (dot row (against query)) min_score)
                                    = true)
                        (_embeddings self)).
Proof.
  intros Hn [Hlen Hdim] Hk. unfold search, size in *.
  destruct (_texts self) as [|t ts] eqn:Ht.
  - exists []. split; [reflexivity|].
    destruct (_embeddings self); [reflexivity|discriminate].
  - destruct (Rgt_dec (norm query) 0) as [_|Hle];
      [|pose proof (norm_positive query Hn); lra].
    fold (against query).
    rewrite row_scores_ok;
      [|intros He; rewrite He in Hlen; discriminate
       |unfold against; rewrite length_map; exact Hdim].
    set (scores := map (fun row => dot row (against query)) (_embeddings self)).
    assert (length scores = length (_texts self)) as Hls.
    { unfold scores. rewrite length_map, Hlen, Ht. reflexivity. }
    destruct (collect_kept self min_score (top_indices scores top_k))
      as [results [Hc Hb]].
    { eapply Forall_impl; [apply top_indices_in_range|].
      intros h Hh. simpl in Hh. rewrite Hls in Hh. exact Hh. }
    exists results. split; [exact Hc|].
    rewrite <- (Forall2_length _ _ _ Hb).
    assert (top_indices scores top_k = rev (argsort scores)) as ->.
    { unfold top_indices, PyList.slice_to.
      destruct (Z.leb_spec 0 top_k) as [_|Hneg]; [|simpl in Hk; lia].
      apply take_ge. rewrite length_rev.
      rewrite (Permutation_length (argsort_permutation scores)).
      unfold enumerate. rewrite length_zip_with, length_seq.
      rewrite Hls, Ht. simpl in *. lia. }
    unfold kept_hits.
    rewrite <- Permutation_rev, argsort_permutation. unfold enumerate.
    rewrite <- (filter_map_length (fun row => dot row (against query))
                  (fun s => negb (Rltb s min_score))).
    fold scores.
    rewrite <- (filter_enumerate_length (fun s => negb (Rltb s min_score)) scores 0).
    f_equal. apply list_filter_iff. intros h.
    destruct (Rltb h.2 min_score); simpl; split; congruence.
Qed.

Lemma search_leaves_nothing_out_witness :
  exists results,
    search twins [1] 2 0 = Ok results
    /\ length results
       = length (filter (fun row => negb (Rltb (dot row (against [1])) 0) = true)
                        (_embeddings twins)).
Proof.
  apply (search_leaves_nothing_out twins [1] 2 0).
  - rewrite norm_one. lra.
  - apply add_store_ok; [apply new_store_ok | reflexivity|].
    repeat constructor.
  - vm_compute. discriminate.
Defined.

(** *** Scores are cosines *)

Lemma against_unit query : norm query > 0 -> norm (against query) = 1.
Proof.
  intros Hn. unfold against.
  replace (map (fun x => x / norm query) query) with (normalize_row query).
  - apply normalize_row_unit. lra.
  - unfold normalize_row. destruct (Req_dec_T (norm query) 0); [lra|reflexivity].
Qed.

Lemma normalize_row_unit_or_zero row : unit_or_zero (normalize_row row).
Proof.
  unfold unit_or_zero. destruct (Req_dec_T (norm row) 0) as [H0|Hn].
  - right. apply normalize_row_zero, H0.
  - left. apply normalize_row_unit, Hn.
Qed.

Lemma add_all_unit_or_zero dim calls :
  Forall unit_or_zero (_embeddings (add_all (VectorStore_init dim) calls)).
Proof.
  rewrite add_all_embeddings. simpl. apply Forall_fmap, Forall_forall.
  intros row _. apply normalize_row_unit_or_zero.
Qed.

Lemma cosine_bounded row query :
  unit_or_zero row -> norm query > 0 -> -1 <= dot row (against query) <= 1.
Proof.
  intros Hrow Hq.
  pose proof (dot_within_norms row (against query)) as Hb.
  rewrite (against_unit query Hq) in Hb.
  apply Rabs_bound in Hb. destruct Hrow as [H|H]; rewrite H in Hb; lra.
Qed.

(** X26.  On a store filled by [add] alone, every score that [search] returns is
    a cosine: it lies between -1 and 1. *)
Theorem search_scores_are_cosines dim calls query top_k min_score results :
  search (add_all (VectorStore_init dim) calls) query top_k min_score = Ok results ->
  Forall (fun r => -1 <= score r <= 1) results.
Proof.
  intros Hs. destruct (search_returns _ _ _ _ _ Hs) as [->|[Hq Hb]]; [constructor|].
  apply (built_from_scores _ (fun s => -1 <= s <= 1) _ _ Hb).
  unfold kept_hits. apply Forall_forall. intros h Hh.
  apply list_elem_of_filter in Hh as [_ Hh].
  pose proof (elem_of_sublist _ _ _ Hh (top_indices_sublist _ _)) as Hh'.
  clear Hh. rename Hh' into Hh.
  rewrite <- Permutation_rev, argsort_permutation in Hh.
  unfold enumerate in Hh. apply list_elem_of_lookup in Hh as [i Hi].
  apply lookup_zip_with_Some in Hi as (j & s & -> & _ & Hsc). simpl.
  rewrite list_lookup_fmap in Hsc.
  destruct (_embeddings (add_all (VectorStore_init dim) calls) !! i) as [row|] eqn:Hrow;
    [|discriminate].
  injection Hsc as <-. apply cosine_bounded; [|exact Hq].
  eapply Forall_lookup_1; [apply add_all_unit_or_zero|exact Hrow].
Qed.

Lemma search_scores_are_cosines_witness :
  Forall (fun r => -1 <= score r <= 1)
         [mkSearchResult "second" (VStr "unknown") (VInt 1) 1 ∅;
          mkSearchResult "first" (VStr "unknown") (VInt 0) 1 ∅].
Proof.
  apply (search_scores_are_cosines 1
           [mkAddCall ["first"; "second"] [[1]; [1]] None] [1] 2 0).
  change (add_all (VectorStore_init 1)
                  [mkAddCall ["first"; "second"] [[1]; [1]] None]) with twins.
  rewrite twins_search. unfold top_indices. rewrite argsort_twins.
  simpl. rewrite twins_pass. reflexivity.
Defined.

(** *** [save] and [load] *)


End StoreFacts.

(** ** Documents, indexing and retrieval *)

Module RagFacts.
Import Rag StoreNotions.
Open Scope Z_scope.

(** *** [chunk_documents] *)

Lemma fold_left_extend {A B} (f : B -> list A) (l : list B) (acc : list A) :
  fold_left (fun acc x => acc ++ f x) l acc = acc ++ concat (map f l).
Proof.
  revert acc. induction l as [|x l IH]; intros acc; simpl.
  - rewrite app_nil_r. reflexivity.
  - rewrite IH, app_assoc. reflexivity.
Qed.

Lemma chunk_documents_concat self documents :
  chunk_documents self documents = concat (map (chunk_document self) documents).
Proof. exact (fold_left_extend (chunk_document self) documents []). Qed.

Lemma chunk_text_source self text source :
  Forall (fun c => Chunking.source c = source) (Chunking.chunk_text self text source).
Proof.
  unfold Chunking.chunk_text.
  destruct (negb (PyStr.truthy text) || negb (PyStr.truthy (PyStr.strip text)));
    [constructor|].
  pose proof (ChunkerFacts.chunk_loop_offsets self source
                (Chunking._split_into_paragraphs text)) as (_ & Hwp & _).
  assert (Forall (fun c => Chunking.source c = source)
                 (Chunking.chunks (Chunking.chunk_loop self source
                                     (Chunking._split_into_paragraphs text)))) as Hsrc.
  { eapply Forall_impl; [exact Hwp|]. intros c [Hc _]. exact Hc. }
  unfold Chunking.emit_last. destruct (PyStr.truthy _ && _); [|exact Hsrc].
  apply Forall_app. split; [exact Hsrc|]. repeat constructor.
Qed.

(** X16.  The chunks of a batch of documents are those of each document, in the
    order of the documents; each names its document as source (or
    [unknown] when the document has no name) and has at least
    [min_chunk_size] tokens. *)
Theorem chunk_documents_attributed self documents :
  chunk_documents self documents = concat (map (chunk_document self) documents)
  /\ Forall (fun c =>
               Chunking.min_chunk_size self <= Chunking.token_count c
               /\ exists doc, doc ∈ documents
                              /\ Chunking.source c = default "unknown" (doc !! "name"))
            (chunk_documents self documents).
Proof.
  split; [apply chunk_documents_concat|].
  rewrite chunk_documents_concat.
  induction documents as [|doc documents IH]; simpl; [constructor|].
  apply Forall_app. split.
  - unfold chunk_document.
    pose proof (ChunkingFacts.chunk_text_large_enough self
                  (default "" (doc !! "content")) (default "unknown" (doc !! "name")))
      as Hmin.
    pose proof (chunk_text_source self
                  (default "" (doc !! "content")) (default "unknown" (doc !! "name")))
      as Hsrc.
    rewrite Forall_forall in *. intros c Hc. split; [apply Hmin, Hc|].
    exists doc. split; [left|apply Hsrc, Hc].
  - eapply Forall_impl; [exact IH|].
    intros c [Hmin (doc' & Hd & Hs)]. split; [exact Hmin|].
    exists doc'. split; [right; exact Hd|exact Hs].
Qed.

Section WithModel.

Variable encode : string -> list R.
Variable md5 : string -> string.
Variable format_score : R -> string.

(** *** [index_documents] *)

Lemma count_source_lookup indexed chunk src :
  default 0 (count_source indexed chunk !! src)
  = default 0 (indexed !! src)
    + (if decide (Chunking.source chunk = src) then 1 else 0).
Proof.
  unfold count_source.
  destruct (indexed !! Chunking.source chunk) as [n|] eqn:Hn.
  - rewrite Hn. destruct (decide (Chunking.source chunk = src)) as [<-|Hne].
    + rewrite lookup_insert_eq, Hn. reflexivity.
    + rewrite lookup_insert_ne by exact Hne. lia.
  - rewrite lookup_insert_eq.
    destruct (decide (Chunking.source chunk = src)) as [<-|Hne].
    + rewrite lookup_insert_eq, Hn. reflexivity.
    + rewrite !lookup_insert_ne by exact Hne. lia.
Qed.

Lemma count_sources_lookup chunks indexed src :
  default 0 (fold_left count_source chunks indexed !! src)
  = default 0 (indexed !! src)
    + Z.of_nat (length (filter (fun c => Chunking.source c = src) chunks)).
Proof.
  revert indexed. induction chunks as [|c chunks IH]; intros indexed; simpl.
  - lia.
  - rewrite IH, count_source_lookup, filter_cons.
    destruct (decide (Chunking.source c = src)); simpl; lia.
Qed.

(** X28.  A call of [index_documents] returns the number of chunks of the batch;
    the store gains one text and one row for each of them and stays aligned
    if it was; the count kept for a source grows by the number of chunks
    that came from it.  The chunker is left as it is. *)
Theorem index_documents_grows (self : RAGService) documents :
  let batch := chunk_documents (chunker self) documents in
  let r := index_documents encode md5 self documents in
  r.1 = Z.of_nat (length batch)
  /\ VectorStore.size (store r.2)
     = VectorStore.size (store self) + Z.of_nat (length batch)
  /\ length (VectorStore._embeddings (store r.2))
     = (length (VectorStore._embeddings (store self)) + length batch)%nat
  /\ (aligned (store self) -> aligned (store r.2))
  /\ (forall src,
         default 0 (_indexed_sources r.2 !! src)
         = default 0 (_indexed_sources self !! src)
           + Z.of_nat (length (filter (fun c => Chunking.source c = src) batch)))
  /\ chunker r.2 = chunker self.
Proof.
  intros batch r. unfold r, index_documents. fold batch.
  destruct documents as [|doc documents].
  { unfold batch. simpl.
    split; [|split; [|split; [|split; [|split]]]]; try lia; auto. }
  destruct batch as [|c cs] eqn:Hbatch.
  { simpl. split; [|split; [|split; [|split; [|split]]]]; try lia; auto. }
  pose proof (EmbeddingFacts.embed_texts_length encode md5 (embedder self)
                (map Chunking.text (c :: cs))) as Hlen.
  destruct (Embedding.embed_texts encode md5 (embedder self)
              (map Chunking.text (c :: cs))) as [embeddings embedder'].
  simpl fst in Hlen. rewrite length_map in Hlen.
  cbn [fst snd store chunker _indexed_sources].
  unfold VectorStore.size.
  change (map Chunking.text (c :: cs)) with (Chunking.text c :: map Chunking.text cs).
  cbn [VectorStore.add VectorStore._texts VectorStore._embeddings
       VectorStore._metadata map].
  split; [|split; [|split; [|split; [|split]]]].
  - reflexivity.
  - rewrite length_app. cbn [length]. rewrite length_map. lia.
  - rewrite length_app, length_map, Hlen. reflexivity.
  - intros [Hm He]. split.
    + cbn [VectorStore._texts VectorStore._metadata].
      rewrite !length_app. cbn [length]. rewrite !length_map. lia.
    + cbn [VectorStore._texts VectorStore._embeddings].
      rewrite !length_app, length_map, Hlen. cbn [length].
      rewrite length_map. lia.
  - intros src. apply count_sources_lookup.
  - reflexivity.
Qed.

(** *** [retrieve] *)

(** X29.  On an empty store [retrieve] returns the empty context at once and
    leaves the service, the embedder's cache included, as it was; the
    prompt built from that context is the query itself. *)
Theorem retrieve_empty_store (self : RAGService) query top_k min_score :
  VectorStore.size (store self) = 0 ->
  retrieve encode md5 format_score self query top_k min_score
  = (VectorStore.Ok empty_context, self)
  /\ get_rag_prompt query empty_context = query.
Proof.
  intros Hsize. unfold retrieve. rewrite Hsize. split; reflexivity.
Qed.

(** X30.  [retrieve] never changes the store, the chunker or the counts per
    source.  A context it returns is either empty, and then leaves the
    prompt as the query, or holds exactly the results of [search] for the
    embedded query together with the set of their sources. *)
Theorem retrieve_leaves_index (self : RAGService) query top_k min_score :
  let r := retrieve encode md5 format_score self query top_k min_score in
  store r.2 = store self
  /\ _indexed_sources r.2 = _indexed_sources self
  /\ chunker r.2 = chunker self
  /\ forall ctx,
       r.1 = VectorStore.Ok ctx ->
       (ctx = empty_context /\ get_rag_prompt query ctx = query)
       \/ (VectorStore.search (store self)
             (Embedding.embed_text encode md5 (embedder self) query).1
             top_k min_score = VectorStore.Ok (chunks ctx)
           /\ sources ctx = list_to_set (map VectorStore.source (chunks ctx))).
Proof.
  unfold retrieve.
  destruct (VectorStore.size (store self) =? 0).
  { simpl. repeat split. intros ctx [= <-]. left. split; reflexivity. }
  destruct (Embedding.embed_text encode md5 (embedder self) query)
    as [query_embedding embedder'].
  cbn [fst].
  destruct (VectorStore.search (store self) query_embedding top_k min_score)
    as [[|res results]|e].
  - simpl. repeat split. intros ctx [= <-]. left. split; reflexivity.
  - destruct (context_parts format_score (res :: results)) as [parts|e];
      cbn [fst snd store _indexed_sources chunker].
    + repeat split. intros ctx [= <-]. right. split; reflexivity.
    + repeat split. discriminate.
  - simpl. repeat split. discriminate.
Qed.

End WithModel.

Lemma retrieve_empty_store_witness :
  let self := mkRAGService (Chunking.create_chunking_service 500 50 None)
                           (Embedding.fresh "all-MiniLM-L6-v2")
                           (VectorStore.VectorStore_init 384) ∅ in
  retrieve (fun _ => [1%R]) (fun s => s) (fun _ => "1.00") self "What?" 5 0%R
  = (VectorStore.Ok empty_context, self)
  /\ get_rag_prompt "What?" empty_context = "What?".
Proof.
  intros self.
  apply (retrieve_empty_store (fun _ => [1%R]) (fun s => s) (fun _ => "1.00")
           self "What?" 5 0%R).
  reflexivity.
Defined.

End RagFacts.
